(** * A deterministic finite-state machine engine and its mod-3 instance

    Shallow embedding of [fsm/fsm.py]: the classes [State], [FSM] and
    [ModThreeFSM].  Python objects live in a heap addressed by object
    identity; a method is a computation in a state-and-exception monad over
    that heap, so that a raised exception keeps every mutation made before
    it, as in Python. *)

From stdpp Require Import gmap strings list fin_maps.
From Stdlib Require Import Ascii ZArith Lia.

(** ** Python values *)

(** The fragment of Python's value universe the entry points are called
    with in the code base and its tests: [None], booleans, integers (which
    are unbounded), strings, lists and tuples. *)
#[warnings="-register-all"]
Inductive PyVal : Type :=
| PyNone
| PyBool (b : bool)
| PyInt (z : Z)
| PyStr (s : string)
| PyList (l : list PyVal)
| PyTuple (l : list PyVal).

(** [isinstance(v, int)]: [bool] is a subclass of [int]. *)
Definition isinstance_int (v : PyVal) : bool :=
  match v with
  | PyInt _ | PyBool _ => true
  | _ => false
  end.

(** The integer a value compares equal to, if any: [True == 1] and
    [False == 0]; neither [None], a string, a list nor a tuple equals an
    integer. *)
Definition int_value (v : PyVal) : option Z :=
  match v with
  | PyInt z => Some z
  | PyBool b => Some (Z.b2z b)
  | _ => None
  end.

(** [v in [0, 1]], that is [v == 0 or v == 1]. *)
Definition in_0_1 (v : PyVal) : bool :=
  match int_value v with
  | Some z => bool_decide (z = 0%Z) || bool_decide (z = 1%Z)
  | None => false
  end.

(** [hash(v)] succeeds: lists are unhashable, and so is a tuple holding
    an unhashable value. *)
Fixpoint hashable (v : PyVal) : bool :=
  match v with
  | PyList _ => false
  | PyTuple l => forallb hashable l
  | _ => true
  end.

(** [hasattr(v, "__iter__")]. *)
Definition has_iter (v : PyVal) : bool :=
  match v with
  | PyStr _ | PyList _ | PyTuple _ => true
  | _ => false
  end.

(** The elements a [for] loop over [v] visits; a string yields its
    one-character substrings. *)
Fixpoint chars (s : string) : list PyVal :=
  match s with
  | EmptyString => []
  | String c s' => PyStr (String c EmptyString) :: chars s'
  end.

Definition iter_elems (v : PyVal) : list PyVal :=
  match v with
  | PyStr s => chars s
  | PyList l | PyTuple l => l
  | _ => []
  end.

(** Truthiness, [bool(v)]. *)
Definition truthy (v : PyVal) : bool :=
  match v with
  | PyNone => false
  | PyBool b => b
  | PyInt z => negb (bool_decide (z = 0%Z))
  | PyStr s => negb (bool_decide (s = EmptyString))
  | PyList l | PyTuple l => negb (bool_decide (l = []))
  end.

(** ** Exceptions *)

(** One constructor per [raise] of the module, carrying what the message
    interpolates. *)
Inductive Msg : Type :=
| StateNameNotNonEmptyString
| TransitionAlreadyExists (input_symbol : Z)
| NextStateNotAState
| InitialStateNotAState
| StateNotAState
| StateNameAlreadyExists (state_name : string)
| SourceStateDoesNotExist (from_state_name : string)
| TargetStateDoesNotExist (to_state_name : string)
| SequenceNotIterable
| SequenceEmpty
| NoTransition (input_symbol : PyVal) (state_name : string)
| SequenceNotAList (input_sequence : PyVal)
| InputNotAnInteger (val : PyVal)
| InputNotBinary (val : PyVal)
| Unhashable (val : PyVal)
| InvalidLiteralForInt (s : string).

Inductive PyExc : Type :=
| ValueError (m : Msg)
| TypeError (m : Msg)
| AttributeError.

(** ** Objects and the heap *)

Definition loc := positive.

(** [State]: [transitions] is the dict from input symbol to the next
    state, held by reference. *)
Record State : Type := mkState {
  name : string;
  is_accepting : bool;
  transitions : gmap Z loc
}.

(** [FSM]: [current_state] is a reference, [states] the dict from state
    name to state. *)
Record FSM : Type := mkFSM {
  current_state : loc;
  states : gmap string loc
}.

Inductive Obj : Type :=
| ObjState (s : State)
| ObjFSM (m : FSM).

Abbreviation heap := (gmap loc Obj).

(** [isinstance(x, State)] for a reference [x]. *)
Definition isinstance_State (h : heap) (x : loc) : bool :=
  match h !! x with
  | Some (ObjState _) => true
  | _ => false
  end.

(** ** The monad of methods *)

Inductive Res (A : Type) : Type :=
| Ok (a : A)
| Raise (e : PyExc).
Arguments Ok {A} a.
Arguments Raise {A} e.

Definition M (A : Type) : Type := heap → Res A * heap.

Definition ret {A} (a : A) : M A := λ h, (Ok a, h).
Definition raise {A} (e : PyExc) : M A := λ h, (Raise e, h).
Definition bind {A B} (m : M A) (k : A → M B) : M B :=
  λ h, match m h with
       | (Ok a, h') => k a h'
       | (Raise e, h') => (Raise e, h')
       end.

Notation "x <- m ;; k" := (bind m (λ x, k))
  (at level 100, m at next level, right associativity,
   format "'[v' x  <-  m  ;;  '/' k ']'").
Notation "m ;;; k" := (bind m (λ _, k))
  (at level 100, right associativity,
   format "'[v' m  ;;;  '/' k ']'").

(** Attribute access through a reference; a reference that does not denote
    an object of the expected class has none of its attributes. *)
Definition get_State (x : loc) : M State :=
  λ h, match h !! x with
       | Some (ObjState s) => (Ok s, h)
       | _ => (Raise AttributeError, h)
       end.

Definition get_FSM (x : loc) : M FSM :=
  λ h, match h !! x with
       | Some (ObjFSM m) => (Ok m, h)
       | _ => (Raise AttributeError, h)
       end.

Definition store (x : loc) (o : Obj) : M unit := λ h, (Ok tt, <[x := o]> h).

Definition alloc (o : Obj) : M loc :=
  λ h, let x := fresh (dom h) in (Ok x, <[x := o]> h).

Definition check_isinstance_State (x : loc) (e : PyExc) : M unit :=
  λ h, if isinstance_State h x then (Ok tt, h) else (Raise e, h).

(** A [for] loop whose body may raise. *)
Fixpoint for_each {A} (body : A → M unit) (l : list A) : M unit :=
  match l with
  | [] => ret tt
  | a :: l' => body a ;;; for_each body l'
  end.

(** ** class State *)

(** [State(name, is_accepting)]. *)
Definition State_init (name : string) (is_accepting : bool) : M loc :=
  if bool_decide (name = EmptyString)
  then raise (ValueError StateNameNotNonEmptyString)
  else alloc (ObjState (mkState name is_accepting ∅)).

(** [self.add_transition(input_symbol, next_state)]. *)
Definition State_add_transition (self : loc) (input_symbol : Z) (next_state : loc)
  : M unit :=
  s <- get_State self ;;
  if bool_decide (is_Some (transitions s !! input_symbol))
  then raise (ValueError (TransitionAlreadyExists input_symbol))
  else
    check_isinstance_State next_state (TypeError NextStateNotAState) ;;;
    store self (ObjState (mkState (name s) (is_accepting s)
                                  (<[input_symbol := next_state]> (transitions s)))).

(** [self.transitions.get(input_symbol, None)] for an arbitrary key. *)
Definition dict_get (d : gmap Z loc) (key : PyVal) : M (option loc) :=
  if hashable key
  then ret (z ← int_value key; d !! z)
  else raise (TypeError (Unhashable key)).

(** [self.get_next_state(input_symbol)]. *)
Definition State_get_next_state (self : loc) (input_symbol : PyVal)
  : M (option loc) :=
  s <- get_State self ;;
  dict_get (transitions s) input_symbol.

(** ** class FSM *)

(** [FSM(initial_state)]. *)
Definition FSM_init (initial_state : loc) : M loc :=
  check_isinstance_State initial_state (TypeError InitialStateNotAState) ;;;
  s <- get_State initial_state ;;
  alloc (ObjFSM (mkFSM initial_state {[ name s := initial_state ]})).

(** [self.add_state(state)]. *)
Definition FSM_add_state (self : loc) (state : loc) : M unit :=
  check_isinstance_State state (TypeError StateNotAState) ;;;
  s <- get_State state ;;
  m <- get_FSM self ;;
  if bool_decide (is_Some (states m !! name s))
  then raise (ValueError (StateNameAlreadyExists (name s)))
  else store self (ObjFSM (mkFSM (current_state m) (<[name s := state]> (states m)))).

(** [self.add_transition(from_state_name, input_symbol, to_state_name)]. *)
Definition FSM_add_transition (self : loc) (from_state_name : string)
    (input_symbol : Z) (to_state_name : string) : M unit :=
  m <- get_FSM self ;;
  match states m !! from_state_name with
  | None => raise (ValueError (SourceStateDoesNotExist from_state_name))
  | Some from_state =>
      match states m !! to_state_name with
      | None => raise (ValueError (TargetStateDoesNotExist to_state_name))
      | Some to_state => State_add_transition from_state input_symbol to_state
      end
  end.

(** The body of the loop of [process_input]. *)
Definition process_symbol (self : loc) (input_symbol : PyVal) : M unit :=
  m <- get_FSM self ;;
  next_state <- State_get_next_state (current_state m) input_symbol ;;
  match next_state with
  | None =>
      s <- get_State (current_state m) ;;
      raise (ValueError (NoTransition input_symbol (name s)))
  | Some next_state => store self (ObjFSM (mkFSM next_state (states m)))
  end.

(** [self.process_input(input_sequence)]. *)
Definition FSM_process_input (self : loc) (input_sequence : PyVal) : M loc :=
  if negb (has_iter input_sequence)
  then raise (TypeError SequenceNotIterable)
  else if negb (truthy input_sequence)
  then raise (ValueError SequenceEmpty)
  else
    for_each (process_symbol self) (iter_elems input_sequence) ;;;
    m <- get_FSM self ;;
    ret (current_state m).

(** [self.is_accepting()]. *)
Definition FSM_is_accepting (self : loc) : M bool :=
  m <- get_FSM self ;;
  s <- get_State (current_state m) ;;
  ret (is_accepting s).

(** ** Built-ins used by ModThreeFSM *)

(** [s[1:]]. *)
Definition slice_from_1 (s : string) : string :=
  match s with
  | EmptyString => EmptyString
  | String _ s' => s'
  end.

Definition is_space (c : ascii) : bool :=
  let n := nat_of_ascii c in
  ((9 <=? n)%nat && (n <=? 13)%nat) || ((28 <=? n)%nat && (n <=? 32)%nat).

Definition digit_value (c : ascii) : option Z :=
  let n := nat_of_ascii c in
  if ((48 <=? n)%nat && (n <=? 57)%nat) then Some (Z.of_nat n - 48)%Z else None.

Fixpoint lstrip (s : string) : string :=
  match s with
  | String c s' => if is_space c then lstrip s' else s
  | EmptyString => EmptyString
  end.

Definition strip (s : string) : string :=
  String.rev (lstrip (String.rev (lstrip s))).

(** Decimal digits, with single underscores allowed between digits. *)
Fixpoint digits_value (acc : Z) (after_digit : bool) (s : string) : option Z :=
  match s with
  | EmptyString => if after_digit then Some acc else None
  | String c s' =>
      match digit_value c with
      | Some d => digits_value (10 * acc + d)%Z true s'
      | None =>
          if bool_decide (c = "_"%char) && after_digit
          then digits_value acc false s'
          else None
      end
  end.

(** [int(s)] for a string: blanks around, an optional sign, decimal digits. *)
Definition int_of_str (s : string) : M Z :=
  let parsed :=
    match strip s with
    | String "+" s' => digits_value 0 false s'
    | String "-" s' => Z.opp <$> digits_value 0 false s'
    | s' => digits_value 0 false s'
    end in
  match parsed with
  | Some z => ret z
  | None => raise (ValueError (InvalidLiteralForInt s))
  end.

(** ** class ModThreeFSM *)

(** [ModThreeFSM()]. *)
Definition ModThreeFSM_init : M loc :=
  s0 <- State_init "S0" true ;;
  s1 <- State_init "S1" true ;;
  s2 <- State_init "S2" true ;;
  self <- FSM_init s0 ;;
  FSM_add_state self s1 ;;;
  FSM_add_state self s2 ;;;
  State_add_transition s0 0 s0 ;;;
  State_add_transition s0 1 s1 ;;;
  State_add_transition s1 0 s2 ;;;
  State_add_transition s1 1 s0 ;;;
  State_add_transition s2 0 s1 ;;;
  State_add_transition s2 1 s2 ;;;
  ret self.

(** The validation of one element of the input. *)
Definition check_binary (val : PyVal) : M unit :=
  if negb (isinstance_int val)
  then raise (TypeError (InputNotAnInteger val))
  else if negb (in_0_1 val)
  then raise (TypeError (InputNotBinary val))
  else ret tt.

(** [self.process_three_mod_input(input_sequence)]. *)
Definition process_three_mod_input (self : loc) (input_sequence : PyVal) : M Z :=
  match input_sequence with
  | PyList l =>
      for_each check_binary l ;;;
      final_state <- FSM_process_input self input_sequence ;;
      s <- get_State final_state ;;
      int_of_str (slice_from_1 (name s))
  | _ => raise (TypeError (SequenceNotAList input_sequence))
  end.

(** [enumerate(l)]. *)
Definition enumerate {A} (l : list A) : list (nat * A) :=
  zip (seq 0 (length l)) l.

(** [sum] of a list of integers. *)
Definition sum (l : list Z) : Z := foldl Z.add 0%Z l.

(** [ModThreeFSM.binary_to_decimal(input_sequence)]. *)
Definition binary_to_decimal (input_sequence : list Z) : Z :=
  sum (map (λ '(idx, bit), bit * 2 ^ Z.of_nat idx)%Z
           (enumerate (rev input_sequence))).

(** A list of Python integers. *)
Definition ints (l : list Z) : PyVal := PyList (PyInt <$> l).

(** ** Test fixtures *)

(** The state S1 of [test_add_transition], after [s1.add_transition(0, s2)]. *)
Definition heap_S1_S2 : heap :=
  <[2%positive := ObjState (mkState "S2" false ∅)]>
    {[1%positive := ObjState (mkState "S1" false {[0%Z := 2%positive]})]}.


(** ** The run of a machine as a fold *)

(** [step(s, sym) = s.get_next_state(sym)], read in the heap [h]; [None]
    when there is no transition. *)
Definition step (h : heap) (s : loc) (sym : Z) : option loc :=
  match State_get_next_state s (PyInt sym) h with
  | (Ok next_state, _) => next_state
  | (Raise _, _) => None
  end.

(** The left fold of [step] over a sequence, defined as long as every
    symbol has a transition from the state reached before it. *)
Definition fold_steps (h : heap) (s : loc) (seq : list Z) : option loc :=
  foldl (λ acc sym, acc ≫= λ s, step h s sym) (Some s) seq.

(** ** The layout of a mod-three machine *)

(** The registry and the three transition tables that [ModThreeFSM()]
    builds, for states allocated at [s0], [s1] and [s2]. *)
Definition mod3_registry (s0 s1 s2 : loc) : gmap string loc :=
  <["S2" := s2]> (<["S1" := s1]> {["S0" := s0]}).

Definition mod3_state (nm : string) (on0 on1 : loc) : Obj :=
  ObjState (mkState nm true (<[1%Z := on1]> (<[0%Z := on0]> ∅))).

(** [h] holds a mod-three machine at [self] whose current state is [cur]. *)
Record mod3_heap (h : heap) (self s0 s1 s2 cur : loc) : Prop := {
  mod3_self : h !! self = Some (ObjFSM (mkFSM cur (mod3_registry s0 s1 s2)));
  mod3_S0 : h !! s0 = Some (mod3_state "S0" s0 s1);
  mod3_S1 : h !! s1 = Some (mod3_state "S1" s2 s0);
  mod3_S2 : h !! s2 = Some (mod3_state "S2" s1 s2)
}.

(** The state standing for the remainder [r]. *)
Definition state_of (s0 s1 s2 : loc) (r : Z) : loc :=
  if bool_decide (r = 0%Z) then s0
  else if bool_decide (r = 1%Z) then s1
  else s2.

(** ** Arithmetic readings of a bit sequence *)

(** The sum [binary_to_decimal] computes, with the indices of [enumerate]
    starting at [k]. *)
Definition weighted (k : nat) (l : list Z) : Z :=
  sum (map (λ '(idx, bit), bit * 2 ^ Z.of_nat idx)%Z (zip (seq k (length l)) l)).

(** Reading the bits most-significant first, doubling at each step. *)
Definition horner (r : Z) (l : list Z) : Z :=
  foldl (λ a b, 2 * a + b)%Z r l.

(** The positional sum of bit [i] times [2^(n-1-i)], for [i] below
    [n = len(l)]. *)
Definition positional_sum (l : list Z) : Z :=
  let n := length l in
  foldr Z.add 0%Z
        (map (λ i, nth i l 0 * 2 ^ Z.of_nat (n - 1 - i))%Z (seq 0 n)).

Definition is_bit (b : Z) : Prop := b = 0%Z ∨ b = 1%Z.

(** The elements that pass the validation of [process_three_mod_input]:
    the integers 0 and 1, and the booleans, which are integers equal to 0
    and 1. *)
Definition binary_value (v : PyVal) : Prop :=
  ∃ b, int_value v = Some b ∧ is_bit b.

(** The integers a list of values compares equal to. *)
Definition int_values (l : list PyVal) : list Z :=
  (λ v, default 0%Z (int_value v)) <$> l.

(** ** The registry invariant *)

(** [x] is one of the states held by the registry [m.states]. *)
Definition registered (m : FSM) (x : loc) : Prop :=
  ∃ n, states m !! n = Some x.

(** The machine at [self] has its [current_state] in its registry. *)
Definition current_state_registered (h : heap) (self : loc) : Prop :=
  ∃ m, h !! self = Some (ObjFSM m) ∧ registered m (current_state m).

(** Every transition out of a registered state leads to a registered
    state. *)
Definition targets_registered (h : heap) (self : loc) : Prop :=
  ∃ m, h !! self = Some (ObjFSM m) ∧
       ∀ n x s sym t,
         states m !! n = Some x → h !! x = Some (ObjState s) →
         transitions s !! sym = Some t → registered m t.

(** The same two checks as executable tests. *)
Definition registeredb (m : FSM) (x : loc) : bool :=
  bool_decide (x ∈ (map_img (states m) : gset loc)).

Definition current_state_registeredb (h : heap) (self : loc) : bool :=
  match h !! self with
  | Some (ObjFSM m) => registeredb m (current_state m)
  | _ => false
  end.

Definition state_targets_registeredb (h : heap) (m : FSM) (x : loc) : bool :=
  match h !! x with
  | Some (ObjState s) =>
      bool_decide (map_Forall (λ _ t, registeredb m t = true) (transitions s))
  | _ => true
  end.

Definition targets_registeredb (h : heap) (self : loc) : bool :=
  match h !! self with
  | Some (ObjFSM m) =>
      bool_decide (map_Forall (λ _ x, state_targets_registeredb h m x = true)
                              (states m))
  | _ => false
  end.

(** A state wired, through [State.add_transition], to a state that is
    never added to the machine built on it. *)
Definition stray_fsm : M loc :=
  s0 <- State_init "S0" false ;;
  x <- State_init "X" false ;;
  State_add_transition s0 0 x ;;;
  FSM_init s0.

(** The machine of [example_fsm.py]. *)
Definition example_fsm : M loc :=
  s0 <- State_init "S0" false ;;
  s1 <- State_init "S1" false ;;
  s2 <- State_init "S2" true ;;
  fsm <- FSM_init s0 ;;
  FSM_add_state fsm s1 ;;;
  FSM_add_state fsm s2 ;;;
  FSM_add_transition fsm "S0" 0 "S0" ;;;
  FSM_add_transition fsm "S0" 1 "S1" ;;;
  FSM_add_transition fsm "S1" 0 "S2" ;;;
  FSM_add_transition fsm "S1" 1 "S0" ;;;
  FSM_add_transition fsm "S2" 0 "S1" ;;;
  FSM_add_transition fsm "S2" 1 "S2" ;;;
  ret fsm.

(** The machine of [TestFSM.test_process_input]. *)
Definition test_fsm : M loc :=
  s0 <- State_init "S0" false ;;
  s1 <- State_init "S1" true ;;
  s2 <- State_init "S2" false ;;
  fsm <- FSM_init s0 ;;
  FSM_add_state fsm s1 ;;;
  FSM_add_state fsm s2 ;;;
  FSM_add_transition fsm "S0" 0 "S1" ;;;
  ret fsm.

(** ** Loops of the tests *)

(** The loop of [test_large_number_of_transitions]:
    [for input_symbol, next_state in pairs: state.add_transition(input_symbol, next_state)]. *)
Definition add_transitions (self : loc) (pairs : list (Z * loc)) : M unit :=
  for_each (λ p, State_add_transition self p.1 p.2) pairs.

(** ** Objects only grow *)

(** [o'] is a later version of the object [o]: a state keeps its name and
    accepting flag and every transition it had; a machine keeps every
    entry of its registry. *)
Definition obj_extends (o o' : Obj) : Prop :=
  match o, o' with
  | ObjState s, ObjState s' =>
      name s' = name s ∧ is_accepting s' = is_accepting s ∧
      transitions s ⊆ transitions s'
  | ObjFSM m, ObjFSM m' => states m ⊆ states m'
  | _, _ => False
  end.

(** Every object of [h] is still there in [h'], in a later version. *)
Definition heap_extends (h h' : heap) : Prop :=
  ∀ x o, h !! x = Some o → ∃ o', h' !! x = Some o' ∧ obj_extends o o'.

(** ** The registry is keyed by the states' own names *)

(** Every entry of the registry of the machine at [self] leads to a
    [State] whose name is the key of the entry. *)
Definition registry_names_consistent (h : heap) (self : loc) : Prop :=
  ∃ m, h !! self = Some (ObjFSM m) ∧
       ∀ n x, states m !! n = Some x →
              ∃ s, h !! x = Some (ObjState s) ∧ name s = n.

(** The same check as an executable test. *)
Definition named_stateb (h : heap) (n : string) (x : loc) : bool :=
  match h !! x with
  | Some (ObjState s) => bool_decide (name s = n)
  | _ => false
  end.

Definition registry_names_consistentb (h : heap) (self : loc) : bool :=
  match h !! self with
  | Some (ObjFSM m) =>
      bool_decide (map_Forall (λ n x, named_stateb h n x = true) (states m))
  | _ => false
  end.

(** ** Callers of the mod-three machine *)

(** Successive calls of [process_three_mod_input] on one machine, the
    results dropped, as in [test_process_three_mod_input]. *)
Definition mod3_calls (self : loc) (inputs : list (list PyVal)) : M unit :=
  for_each (λ l, process_three_mod_input self (PyList l) ;;; ret tt) inputs.

(** [l * k], the list [l] repeated [k] times. *)
Definition py_repeat {A} (l : list A) (k : nat) : list A :=
  concat (replicate k l).

(** An input that passes the validation of [process_three_mod_input]. *)
Definition valid_input (l : list PyVal) : Prop :=
  l ≠ [] ∧ Forall binary_value l.

(** ** Well-formed machines *)

(** The three invariants of a machine together: its [current_state] is
    registered, the transitions of its registered states lead to
    registered states, and its registry is keyed by the states' names. *)
Definition well_formed (h : heap) (self : loc) : Prop :=
  current_state_registered h self ∧ targets_registered h self ∧
  registry_names_consistent h self.
(** * Properties *)

(** ** Running computations *)

Lemma bind_Ok {A B} (m : M A) (k : A → M B) h a h' :
  m h = (Ok a, h') → bind m k h = k a h'.
Proof. unfold bind. by intros ->. Qed.

Lemma bind_Raise {A B} (m : M A) (k : A → M B) h e h' :
  m h = (Raise e, h') → bind m k h = (Raise e, h').
Proof. unfold bind. by intros ->. Qed.

Lemma get_State_Ok h x s : h !! x = Some (ObjState s) → get_State x h = (Ok s, h).
Proof. unfold get_State. by intros ->. Qed.

Lemma get_FSM_Ok h x m : h !! x = Some (ObjFSM m) → get_FSM x h = (Ok m, h).
Proof. unfold get_FSM. by intros ->. Qed.

Lemma get_State_inv h x s h' :
  get_State x h = (Ok s, h') → h !! x = Some (ObjState s) ∧ h' = h.
Proof.
  unfold get_State. destruct (h !! x) as [[?|?]|]; intros [= <- <-] || intros [=]; done.
Qed.

Lemma get_FSM_inv h x m h' :
  get_FSM x h = (Ok m, h') → h !! x = Some (ObjFSM m) ∧ h' = h.
Proof.
  unfold get_FSM. destruct (h !! x) as [[?|?]|]; intros [= <- <-] || intros [=]; done.
Qed.

Lemma get_State_heap h x : (get_State x h).2 = h.
Proof. unfold get_State. by destruct (h !! x) as [[?|?]|]. Qed.

Lemma get_FSM_heap h x : (get_FSM x h).2 = h.
Proof. unfold get_FSM. by destruct (h !! x) as [[?|?]|]. Qed.


Lemma alloc_spec o h :
  ∃ x, h !! x = None ∧ alloc o h = (Ok x, <[x := o]> h).
Proof.
  exists (fresh (dom h)). split; [|done].
  apply not_elem_of_dom, is_fresh.
Qed.

(** ** class State *)

Lemma State_init_Ok n acc h :
  n ≠ EmptyString →
  ∃ x, h !! x = None ∧
       State_init n acc h = (Ok x, <[x := ObjState (mkState n acc ∅)]> h).
Proof.
  intros Hn. unfold State_init. rewrite bool_decide_eq_false_2 by done.
  apply alloc_spec.
Qed.

Lemma State_add_transition_Ok h self s sym target :
  h !! self = Some (ObjState s) →
  transitions s !! sym = None →
  isinstance_State h target = true →
  State_add_transition self sym target h =
    (Ok tt, <[self := ObjState (mkState (name s) (is_accepting s)
                                         (<[sym := target]> (transitions s)))]> h).
Proof.
  intros Hs Hsym Ht. unfold State_add_transition.
  rewrite (bind_Ok _ _ _ _ _ (get_State_Ok _ _ _ Hs)).
  rewrite bool_decide_eq_false_2 by (rewrite Hsym; by intros [? [=]]).
  unfold bind, check_isinstance_State. by rewrite Ht.
Qed.

Lemma State_add_transition_duplicate h self s sym target old :
  h !! self = Some (ObjState s) →
  transitions s !! sym = Some old →
  State_add_transition self sym target h =
    (Raise (ValueError (TransitionAlreadyExists sym)), h).
Proof.
  intros Hs Hsym. unfold State_add_transition.
  rewrite (bind_Ok _ _ _ _ _ (get_State_Ok _ _ _ Hs)).
  by rewrite bool_decide_eq_true_2 by (rewrite Hsym; eauto).
Qed.

(** Whatever its outcome, [add_transition] changes at most the object
    [self], and keeps it a [State] of the same name and flag. *)
Lemma State_add_transition_heap h self sym target :
  (State_add_transition self sym target h).2 = h ∨
  ∃ s, h !! self = Some (ObjState s) ∧
       transitions s !! sym = None ∧
       isinstance_State h target = true ∧
       State_add_transition self sym target h =
         (Ok tt, <[self := ObjState (mkState (name s) (is_accepting s)
                                      (<[sym := target]> (transitions s)))]> h).
Proof.
  unfold State_add_transition, bind.
  destruct (get_State self h) as [[s|e] h1] eqn:Hg.
  - apply get_State_inv in Hg as [Hs ->].
    case_bool_decide as Hd; [by left|].
    unfold check_isinstance_State.
    destruct (isinstance_State h target) eqn:Ht; [|by left].
    right. exists s. repeat split; try done.
    by apply eq_None_not_Some.
  - left. cbn. by rewrite <- (get_State_heap h self), Hg.
Qed.

Lemma State_get_next_state_int h self s sym :
  h !! self = Some (ObjState s) →
  State_get_next_state self (PyInt sym) h = (Ok (transitions s !! sym), h).
Proof.
  intros Hs. unfold State_get_next_state.
  by rewrite (bind_Ok _ _ _ _ _ (get_State_Ok _ _ _ Hs)).
Qed.

(** C6. For every [State] and every integer symbol: when the symbol has no
    entry and the target is a [State], [add_transition] succeeds; whenever
    it succeeds, [get_next_state] on that symbol returns exactly the target
    right afterwards; and when the symbol already has an entry,
    [add_transition] raises the duplicate-transition [ValueError] for that
    symbol, leaves the heap as it was, and [get_next_state] still returns
    the target registered before. *)
Theorem add_transition_get_next_state h self s sym target :
  h !! self = Some (ObjState s) →
  (transitions s !! sym = None → isinstance_State h target = true →
   ∃ h', State_add_transition self sym target h = (Ok tt, h')) ∧
  (∀ h', State_add_transition self sym target h = (Ok tt, h') →
         State_get_next_state self (PyInt sym) h' = (Ok (Some target), h')) ∧
  (∀ old, transitions s !! sym = Some old →
          State_add_transition self sym target h =
            (Raise (ValueError (TransitionAlreadyExists sym)), h) ∧
          State_get_next_state self (PyInt sym) h = (Ok (Some old), h)).
Proof.
  intros Hs. split; [|split].
  - intros Hsym Ht. eexists. by apply State_add_transition_Ok.
  - intros h' Hadd.
    destruct (State_add_transition_heap h self sym target)
      as [Hsame|(s' & Hs' & _ & _ & Hok)].
    + destruct (transitions s !! sym) as [old|] eqn:Hsym.
      * by rewrite (State_add_transition_duplicate _ _ _ _ _ _ Hs Hsym) in Hadd.
      * destruct (isinstance_State h target) eqn:Ht.
        -- rewrite (State_add_transition_Ok _ _ _ _ _ Hs Hsym Ht) in Hadd.
           injection Hadd as <-.
           erewrite State_get_next_state_int by apply lookup_insert_eq.
           cbn. by rewrite lookup_insert_eq.
        -- exfalso. revert Hadd. unfold State_add_transition.
           rewrite (bind_Ok _ _ _ _ _ (get_State_Ok _ _ _ Hs)).
           rewrite bool_decide_eq_false_2 by (rewrite Hsym; by intros [? [=]]).
           unfold bind, check_isinstance_State. by rewrite Ht.
    + rewrite Hok in Hadd. injection Hadd as <-.
      erewrite State_get_next_state_int by apply lookup_insert_eq.
      cbn. by rewrite lookup_insert_eq.
  - intros old Hsym. split.
    + by eapply State_add_transition_duplicate.
    + rewrite (State_get_next_state_int _ _ _ _ Hs). by rewrite Hsym.
Qed.

Lemma add_transition_get_next_state_witness :
  (∃ h', State_add_transition 1%positive 1%Z 2%positive heap_S1_S2 = (Ok tt, h') ∧
         State_get_next_state 1%positive (PyInt 1) h' = (Ok (Some 2%positive), h')) ∧
  (State_add_transition 1%positive 0%Z 1%positive heap_S1_S2 =
     (Raise (ValueError (TransitionAlreadyExists 0)), heap_S1_S2) ∧
   State_get_next_state 1%positive (PyInt 0) heap_S1_S2 =
     (Ok (Some 2%positive), heap_S1_S2)).
Proof.
  pose (s1 := mkState "S1" false {[0%Z := 2%positive]}).
  split.
  - destruct (add_transition_get_next_state heap_S1_S2 1%positive s1 1%Z 2%positive eq_refl)
      as (Hok & Hget & _).
    destruct (Hok eq_refl eq_refl) as [h' Hadd].
    exists h'. split; [exact Hadd|]. exact (Hget h' Hadd).
  - destruct (add_transition_get_next_state heap_S1_S2 1%positive s1 0%Z 1%positive eq_refl)
      as (_ & _ & Hdup).
    exact (Hdup 2%positive eq_refl).
Defined.

(** ** class FSM: [process_input] *)

Lemma for_each_app {A} (body : A → M unit) l1 l2 h :
  for_each body (l1 ++ l2) h = (for_each body l1 ;;; for_each body l2) h.
Proof.
  revert h. induction l1 as [|a l1 IH]; intros h; [done|].
  cbn. unfold bind. destruct (body a h) as [[[]|e] h1]; [|done].
  by rewrite IH.
Qed.

Lemma fold_steps_cons h s sym seq :
  fold_steps h s (sym :: seq) =
    match step h s sym with
    | Some t => fold_steps h t seq
    | None => None
    end.
Proof.
  unfold fold_steps. cbn. destruct (step h s sym) as [t|]; [done|].
  induction seq as [|? ? IH]; [done|]. apply IH.
Qed.

Lemma fold_steps_app h s l1 l2 :
  fold_steps h s (l1 ++ l2) = fold_steps h s l1 ≫= λ t, fold_steps h t l2.
Proof.
  revert s. induction l1 as [|sym l1 IH]; intros s; [done|].
  rewrite <- app_comm_cons, !fold_steps_cons.
  destruct (step h s sym); [apply IH|done].
Qed.

(** Writing the machine object does not change what [step] reads. *)
Lemma step_store_FSM h self m m' s sym :
  h !! self = Some (ObjFSM m) →
  step (<[self := ObjFSM m']> h) s sym = step h s sym.
Proof.
  intros Hself. unfold step, State_get_next_state, bind, get_State.
  destruct (decide (s = self)) as [->|Hne].
  - by rewrite lookup_insert_eq, Hself.
  - rewrite lookup_insert_ne by done.
    by destruct (h !! s) as [[?|?]|].
Qed.

Lemma fold_steps_store_FSM h self m m' s seq :
  h !! self = Some (ObjFSM m) →
  fold_steps (<[self := ObjFSM m']> h) s seq = fold_steps h s seq.
Proof.
  intros Hself. revert s. induction seq as [|sym seq IH]; intros s; [done|].
  rewrite !fold_steps_cons, (step_store_FSM _ _ _ _ _ _ Hself).
  destruct (step h s sym); [apply IH|done].
Qed.

Lemma step_Some h s sym t :
  step h s sym = Some t →
  ∃ st, h !! s = Some (ObjState st) ∧ transitions st !! sym = Some t.
Proof.
  unfold step, State_get_next_state, bind.
  destruct (get_State s h) as [[st|e] h1] eqn:Hg; [|done].
  apply get_State_inv in Hg as [Hs ->]. cbn. eauto.
Qed.

Lemma process_symbol_Ok h self m sym t :
  h !! self = Some (ObjFSM m) →
  step h (current_state m) sym = Some t →
  process_symbol self (PyInt sym) h =
    (Ok tt, <[self := ObjFSM (mkFSM t (states m))]> h).
Proof.
  intros Hself (st & Hst & Ht)%step_Some. unfold process_symbol.
  rewrite (bind_Ok _ _ _ _ _ (get_FSM_Ok _ _ _ Hself)).
  rewrite (bind_Ok _ _ _ _ _ (State_get_next_state_int _ _ _ _ Hst)).
  by rewrite Ht.
Qed.

Lemma process_symbol_NoTransition h self m st sym :
  h !! self = Some (ObjFSM m) →
  h !! current_state m = Some (ObjState st) →
  transitions st !! sym = None →
  process_symbol self (PyInt sym) h =
    (Raise (ValueError (NoTransition (PyInt sym) (name st))), h).
Proof.
  intros Hself Hst Ht. unfold process_symbol.
  rewrite (bind_Ok _ _ _ _ _ (get_FSM_Ok _ _ _ Hself)).
  rewrite (bind_Ok _ _ _ _ _ (State_get_next_state_int _ _ _ _ Hst)).
  rewrite Ht. by rewrite (bind_Ok _ _ _ _ _ (get_State_Ok _ _ _ Hst)).
Qed.

Lemma insert_FSM_id (h : heap) self m :
  h !! self = Some (ObjFSM m) →
  <[self := ObjFSM (mkFSM (current_state m) (states m))]> h = h.
Proof. intros Hself. apply insert_id. by destruct m. Qed.

(** The loop of [process_input] along a defined path. *)
Lemma for_each_process_symbol h self m seq final :
  h !! self = Some (ObjFSM m) →
  fold_steps h (current_state m) seq = Some final →
  for_each (process_symbol self) (PyInt <$> seq) h =
    (Ok tt, <[self := ObjFSM (mkFSM final (states m))]> h).
Proof.
  revert h m. induction seq as [|sym seq IH]; intros h m Hself Hfold.
  - injection Hfold as <-. cbn. unfold ret. by rewrite insert_FSM_id.
  - rewrite fold_steps_cons in Hfold.
    destruct (step h (current_state m) sym) as [t|] eqn:Hstep; [|done].
    cbn. rewrite (bind_Ok _ _ _ _ _ (process_symbol_Ok _ _ _ _ _ Hself Hstep)).
    rewrite (IH _ (mkFSM t (states m)) (lookup_insert_eq _ _ _)).
    + by rewrite insert_insert_eq.
    + cbn. by rewrite (fold_steps_store_FSM _ _ _ _ _ _ Hself).
Qed.

(** C2. For every non-empty sequence of integers along which, from the
    machine's current state, every symbol in order has a transition,
    [process_input] returns the state obtained by folding
    [step(s, sym) = s.get_next_state(sym)] over the sequence from the
    current state, and afterwards the machine's [current_state] is that
    state (nothing else in the heap has changed). *)
Theorem process_input_is_fold h self m seq final :
  h !! self = Some (ObjFSM m) →
  seq ≠ [] →
  fold_steps h (current_state m) seq = Some final →
  FSM_process_input self (ints seq) h =
    (Ok final, <[self := ObjFSM (mkFSM final (states m))]> h).
Proof.
  intros Hself Hne Hfold. unfold FSM_process_input, ints. cbn.
  rewrite bool_decide_eq_false_2 by (by destruct seq). cbn.
  rewrite (bind_Ok _ _ _ _ _ (for_each_process_symbol _ _ _ _ _ Hself Hfold)).
  by rewrite (bind_Ok _ _ _ _ _ (get_FSM_Ok _ _ _ (lookup_insert_eq _ _ _))).
Qed.

(** C3. When the first symbols [pre] of the input each have a transition
    from the successively reached states, and the next symbol [sym] has
    none from the state [sk] reached after them, [process_input] raises
    the no-transition [ValueError] naming [sym] and the state [sk], and
    afterwards the machine's [current_state] is [sk]: the steps made before
    the failure are kept, and the failing symbol does not move the
    machine. *)
Theorem process_input_no_transition h self m pre sym post sk st :
  h !! self = Some (ObjFSM m) →
  fold_steps h (current_state m) pre = Some sk →
  h !! sk = Some (ObjState st) →
  transitions st !! sym = None →
  FSM_process_input self (ints (pre ++ sym :: post)) h =
    (Raise (ValueError (NoTransition (PyInt sym) (name st))),
     <[self := ObjFSM (mkFSM sk (states m))]> h).
Proof.
  intros Hself Hfold Hsk Hsym. unfold FSM_process_input, ints. cbn.
  rewrite bool_decide_eq_false_2 by (by destruct pre). cbn.
  rewrite fmap_app, fmap_cons.
  assert (self ≠ sk) as Hne by (intros ->; congruence).
  apply bind_Raise. rewrite for_each_app.
  rewrite (bind_Ok _ _ _ _ _ (for_each_process_symbol _ _ _ _ _ Hself Hfold)).
  cbn. apply bind_Raise.
  apply (process_symbol_NoTransition _ _ (mkFSM sk (states m)));
    [apply lookup_insert_eq| |done].
  cbn. by rewrite lookup_insert_ne.
Qed.

(** ** class FSM: construction and registration *)

Lemma FSM_init_Ok h x s :
  h !! x = Some (ObjState s) →
  ∃ self, h !! self = None ∧
          FSM_init x h =
            (Ok self, <[self := ObjFSM (mkFSM x {[name s := x]})]> h).
Proof.
  intros Hx. destruct (alloc_spec (ObjFSM (mkFSM x {[name s := x]})) h)
    as (self & Hself & Halloc).
  exists self. split; [done|]. unfold FSM_init.
  unfold bind at 1. unfold check_isinstance_State, isinstance_State.
  rewrite Hx. by rewrite (bind_Ok _ _ _ _ _ (get_State_Ok _ _ _ Hx)).
Qed.

Lemma FSM_add_state_Ok h self m x s :
  h !! self = Some (ObjFSM m) →
  h !! x = Some (ObjState s) →
  states m !! name s = None →
  FSM_add_state self x h =
    (Ok tt, <[self := ObjFSM (mkFSM (current_state m)
                                     (<[name s := x]> (states m)))]> h).
Proof.
  intros Hself Hx Hfree. unfold FSM_add_state.
  unfold bind at 1. unfold check_isinstance_State, isinstance_State.
  rewrite Hx. rewrite (bind_Ok _ _ _ _ _ (get_State_Ok _ _ _ Hx)).
  rewrite (bind_Ok _ _ _ _ _ (get_FSM_Ok _ _ _ Hself)).
  by rewrite bool_decide_eq_false_2 by (rewrite Hfree; by intros [? [=]]).
Qed.

(** ** class ModThreeFSM: construction *)

Lemma isinstance_State_insert h x o y :
  isinstance_State h y = true →
  isinstance_State (<[x := ObjState o]> h) y = true.
Proof.
  unfold isinstance_State. destruct (decide (x = y)) as [->|].
  - by rewrite lookup_insert_eq.
  - by rewrite lookup_insert_ne.
Qed.

Ltac heap_lookup :=
  repeat (rewrite lookup_insert_eq || rewrite lookup_insert_ne by done);
  done.

(** [ModThreeFSM()] always succeeds and lays out the machine, in state S0. *)
Lemma ModThreeFSM_init_layout h0 :
  ∃ self s0 s1 s2 h,
    ModThreeFSM_init h0 = (Ok self, h) ∧ mod3_heap h self s0 s1 s2 s0.
Proof.
  unfold ModThreeFSM_init.
  destruct (State_init_Ok "S0" true h0) as (s0 & F0 & E0); [done|].
  rewrite (bind_Ok _ _ _ _ _ E0). clear E0.
  set (h1 := <[s0 := _]> h0) in *.
  destruct (State_init_Ok "S1" true h1) as (s1 & F1 & E1); [done|].
  rewrite (bind_Ok _ _ _ _ _ E1). clear E1.
  set (h2 := <[s1 := _]> h1) in *.
  destruct (State_init_Ok "S2" true h2) as (s2 & F2 & E2); [done|].
  rewrite (bind_Ok _ _ _ _ _ E2). clear E2.
  set (h3 := <[s2 := _]> h2) in *.
  assert (s1 ≠ s0) as N10
    by (intros ->; subst h1; by rewrite lookup_insert_eq in F1).
  assert (s2 ≠ s1) as N21
    by (intros ->; subst h2; by rewrite lookup_insert_eq in F2).
  assert (s2 ≠ s0) as N20
    by (intros ->; subst h2 h1;
        rewrite lookup_insert_ne in F2 by done; by rewrite lookup_insert_eq in F2).
  destruct (FSM_init_Ok h3 s0 (mkState "S0" true ∅)) as (self & F3 & E3);
    [subst h3 h2 h1; heap_lookup|].
  rewrite (bind_Ok _ _ _ _ _ E3). clear E3. cbn [name].
  assert (self ≠ s2) as N2
    by (intros ->; subst h3; by rewrite lookup_insert_eq in F3).
  assert (self ≠ s1) as N1
    by (intros ->; subst h3 h2;
        rewrite lookup_insert_ne in F3 by done; by rewrite lookup_insert_eq in F3).
  assert (self ≠ s0) as N0
    by (intros ->; subst h3 h2 h1;
        rewrite !lookup_insert_ne in F3 by done; by rewrite lookup_insert_eq in F3).
  set (h4 := <[self := _]> h3) in *.
  erewrite (bind_Ok _ _ h4); last first.
  { eapply (FSM_add_state_Ok _ _ _ s1 (mkState "S1" true ∅));
      [subst h4; heap_lookup|subst h4 h3 h2; heap_lookup|done]. }
  cbn [name current_state states].
  set (h5 := <[self := _]> h4) in *.
  erewrite (bind_Ok _ _ h5); last first.
  { eapply (FSM_add_state_Ok _ _ _ s2 (mkState "S2" true ∅));
      [subst h5; heap_lookup|subst h5 h4 h3; heap_lookup|done]. }
  cbn [name current_state states].
  set (h6 := <[self := _]> h5) in *.
  assert (∀ x, x ≠ self → h6 !! x = h3 !! x) as Hframe
    by (intros x Hx; subst h6 h5 h4; heap_lookup).
  assert (isinstance_State h6 s0 = true ∧ isinstance_State h6 s1 = true ∧
          isinstance_State h6 s2 = true) as (I0 & I1 & I2).
  { unfold isinstance_State. rewrite !Hframe by done.
    subst h3 h2 h1. repeat split; heap_lookup. }
  erewrite (bind_Ok _ _ h6); last first.
  { eapply (State_add_transition_Ok _ _ (mkState "S0" true ∅));
      [rewrite Hframe by done; subst h3 h2 h1; heap_lookup|done|done]. }
  cbn [name is_accepting transitions].
  set (h7 := <[s0 := _]> h6) in *.
  assert (isinstance_State h7 s0 = true ∧ isinstance_State h7 s1 = true ∧
          isinstance_State h7 s2 = true) as (J0 & J1 & J2)
    by (subst h7; repeat split; by apply isinstance_State_insert).
  erewrite (bind_Ok _ _ h7); last first.
  { eapply State_add_transition_Ok;
      [subst h7; apply lookup_insert_eq|done|done]. }
  cbn [name is_accepting transitions].
  set (h8 := <[s0 := _]> h7) in *.
  assert (isinstance_State h8 s0 = true ∧ isinstance_State h8 s1 = true ∧
          isinstance_State h8 s2 = true) as (K0 & K1 & K2)
    by (subst h8; repeat split; by apply isinstance_State_insert).
  erewrite (bind_Ok _ _ h8); last first.
  { eapply (State_add_transition_Ok _ _ (mkState "S1" true ∅));
      [subst h8 h7; rewrite !lookup_insert_ne, Hframe by done;
       subst h3 h2; heap_lookup|done|done]. }
  cbn [name is_accepting transitions].
  set (h9 := <[s1 := _]> h8) in *.
  assert (isinstance_State h9 s0 = true ∧ isinstance_State h9 s1 = true ∧
          isinstance_State h9 s2 = true) as (L0 & L1 & L2)
    by (subst h9; repeat split; by apply isinstance_State_insert).
  erewrite (bind_Ok _ _ h9); last first.
  { eapply State_add_transition_Ok;
      [subst h9; apply lookup_insert_eq|done|done]. }
  cbn [name is_accepting transitions].
  set (h10 := <[s1 := _]> h9) in *.
  assert (isinstance_State h10 s0 = true ∧ isinstance_State h10 s1 = true ∧
          isinstance_State h10 s2 = true) as (P0 & P1 & P2)
    by (subst h10; repeat split; by apply isinstance_State_insert).
  erewrite (bind_Ok _ _ h10); last first.
  { eapply (State_add_transition_Ok _ _ (mkState "S2" true ∅));
      [subst h10 h9 h8 h7; rewrite !lookup_insert_ne, Hframe by done;
       subst h3; heap_lookup|done|done]. }
  cbn [name is_accepting transitions].
  set (h11 := <[s2 := _]> h10) in *.
  assert (isinstance_State h11 s0 = true ∧ isinstance_State h11 s1 = true ∧
          isinstance_State h11 s2 = true) as (Q0 & Q1 & Q2)
    by (subst h11; repeat split; by apply isinstance_State_insert).
  erewrite (bind_Ok _ _ h11); last first.
  { eapply State_add_transition_Ok;
      [subst h11; apply lookup_insert_eq|done|done]. }
  cbn [name is_accepting transitions].
  set (h12 := <[s2 := _]> h11) in *.
  exists self, s0, s1, s2, h12. split; [done|].
  split; unfold mod3_state, mod3_registry;
    subst h12 h11 h10 h9 h8 h7 h6 h5 h4; heap_lookup.
Qed.

(** ** Arithmetic of [binary_to_decimal] *)

Lemma sum_from a l : foldl Z.add a l = (a + sum l)%Z.
Proof.
  unfold sum. revert a. induction l as [|x l IH]; intros a; cbn; [lia|].
  rewrite (IH (a + x)%Z), (IH (0 + x)%Z). lia.
Qed.

Lemma weighted_cons k x l :
  weighted k (x :: l) = (x * 2 ^ Z.of_nat k + weighted (S k) l)%Z.
Proof.
  unfold weighted. cbn [length seq zip_with map]. unfold sum at 1.
  cbn [foldl]. by rewrite sum_from.
Qed.

Lemma weighted_shift k l : weighted (S k) l = (2 * weighted k l)%Z.
Proof.
  revert k. induction l as [|x l IH]; intros k; [done|].
  rewrite !weighted_cons, IH.
  replace (Z.of_nat (S k)) with (Z.succ (Z.of_nat k)) by lia.
  rewrite Z.pow_succ_r by lia. lia.
Qed.

Lemma binary_to_decimal_weighted l : binary_to_decimal l = weighted 0 (rev l).
Proof. done. Qed.

Lemma binary_to_decimal_snoc l b :
  binary_to_decimal (l ++ [b]) = (2 * binary_to_decimal l + b)%Z.
Proof.
  rewrite !binary_to_decimal_weighted, rev_app_distr. cbn [rev app].
  rewrite weighted_cons, weighted_shift. cbn. lia.
Qed.

Lemma binary_to_decimal_horner l : binary_to_decimal l = horner 0 l.
Proof.
  induction l as [|b l IH] using rev_ind; [done|].
  rewrite binary_to_decimal_snoc, IH. unfold horner. by rewrite foldl_snoc.
Qed.

Lemma horner_shift r l : horner r l = (r * 2 ^ Z.of_nat (length l) + horner 0 l)%Z.
Proof.
  unfold horner. revert r. induction l as [|b l IH]; intros r; cbn [foldl length].
  - cbn. lia.
  - rewrite (IH (2 * r + b)%Z), (IH (2 * 0 + b)%Z).
    replace (Z.of_nat (S (length l))) with (Z.succ (Z.of_nat (length l))) by lia.
    rewrite Z.pow_succ_r by lia. lia.
Qed.

Lemma horner_app r l1 l2 : horner r (l1 ++ l2) = horner (horner r l1) l2.
Proof. apply foldl_app. Qed.

Lemma horner_mod_3 r l : (horner (r mod 3) l mod 3 = horner r l mod 3)%Z.
Proof.
  rewrite (horner_shift (r mod 3)), (horner_shift r).
  rewrite Z.add_mod, Z.mul_mod_idemp_l, <- Z.add_mod by lia. done.
Qed.

Lemma positional_sum_cons b l :
  positional_sum (b :: l) = (b * 2 ^ Z.of_nat (length l) + positional_sum l)%Z.
Proof.
  unfold positional_sum. cbn [length]. rewrite <- cons_seq. cbn [map foldr nth].
  replace (S (length l) - 1 - 0) with (length l) by lia. f_equal.
  rewrite <- seq_shift, map_map.
  f_equal. apply map_ext. intros i. cbn [nth]. do 3 f_equal. lia.
Qed.

Lemma binary_to_decimal_positional_sum l : binary_to_decimal l = positional_sum l.
Proof.
  rewrite binary_to_decimal_horner.
  induction l as [|b l IH]; [done|].
  rewrite positional_sum_cons, <- IH. unfold horner at 1. cbn [foldl].
  fold (horner (2 * 0 + b) l). rewrite horner_shift. lia.
Qed.

Lemma binary_to_decimal_cons b l :
  binary_to_decimal (b :: l) =
    (b * 2 ^ Z.of_nat (length l) + binary_to_decimal l)%Z.
Proof. by rewrite !binary_to_decimal_positional_sum, positional_sum_cons. Qed.

Lemma binary_to_decimal_bound l :
  Forall is_bit l → (0 ≤ binary_to_decimal l < 2 ^ Z.of_nat (length l))%Z.
Proof.
  induction 1 as [|b l Hb _ IH]; [done|].
  rewrite binary_to_decimal_cons. cbn [length].
  replace (Z.of_nat (S (length l))) with (Z.succ (Z.of_nat (length l))) by lia.
  rewrite Z.pow_succ_r by lia. destruct Hb as [-> | ->]; lia.
Qed.

Lemma binary_to_decimal_inj l1 l2 :
  Forall is_bit l1 → Forall is_bit l2 → length l1 = length l2 →
  binary_to_decimal l1 = binary_to_decimal l2 → l1 = l2.
Proof.
  intros H1. revert l2. induction H1 as [|b1 l1 Hb1 H1 IH];
    intros l2 H2 Hlen Heq; destruct H2 as [|b2 l2 Hb2 H2]; try done.
  injection Hlen as Hlen. rewrite !binary_to_decimal_cons, Hlen in Heq.
  pose proof (binary_to_decimal_bound l1 H1) as B1.
  pose proof (binary_to_decimal_bound l2 H2) as B2.
  rewrite Hlen in B1.
  assert (b1 = b2) as -> by (destruct Hb1 as [-> | ->], Hb2 as [-> | ->]; lia).
  f_equal. apply IH; [done|done|lia].
Qed.

(** C8. For every sequence of bits, most-significant first, of length [n]:
    [binary_to_decimal] is the sum of bit [i] times [2^(n-1-i)]; it is a
    function of the sequence alone (it takes no heap, hence no machine);
    and it loses nothing, whatever the length: the value lies in
    [0, 2^n), and two bit sequences of the same length with the same value
    are equal. *)
Theorem binary_to_decimal_exact l :
  Forall is_bit l →
  binary_to_decimal l = positional_sum l ∧
  (0 ≤ binary_to_decimal l < 2 ^ Z.of_nat (length l))%Z ∧
  (∀ l', Forall is_bit l' → length l' = length l →
         binary_to_decimal l' = binary_to_decimal l → l' = l).
Proof.
  intros Hl. split; [apply binary_to_decimal_positional_sum|].
  split; [by apply binary_to_decimal_bound|].
  intros l' Hl' Hlen Heq. by apply binary_to_decimal_inj.
Qed.

(** [test_binary_to_decimal_large_numbers]: thirty ones. *)
Lemma binary_to_decimal_exact_witness :
  binary_to_decimal (replicate 30 1%Z) = positional_sum (replicate 30 1%Z) ∧
  (0 ≤ binary_to_decimal (replicate 30 1%Z)
     < 2 ^ Z.of_nat (length (replicate 30 1%Z)))%Z ∧
  (∀ l', Forall is_bit l' → length l' = length (replicate 30 1%Z) →
         binary_to_decimal l' = binary_to_decimal (replicate 30 1%Z) →
         l' = replicate 30 1%Z).
Proof.
  apply (binary_to_decimal_exact (replicate 30 1%Z)).
  apply Forall_replicate. by right.
Defined.

Example binary_to_decimal_thirty_ones :
  binary_to_decimal (replicate 30 1%Z) = (2 ^ 30 - 1)%Z.
Proof. reflexivity. Qed.

Example binary_to_decimal_731 :
  binary_to_decimal [1; 0; 1; 1; 0; 1; 1; 0; 1; 1]%Z = 731%Z.
Proof. reflexivity. Qed.

(** ** class ModThreeFSM: the run *)

Lemma binary_value_cases v :
  binary_value v ↔ v = PyInt 0 ∨ v = PyInt 1 ∨ ∃ b, v = PyBool b.
Proof.
  unfold binary_value, is_bit. split.
  - intros (b & Hv & Hb). destruct v; try done; cbn in Hv.
    + eauto.
    + injection Hv as ->. destruct Hb as [-> | ->]; auto.
  - intros [-> | [-> | [b ->]]]; cbn; [eauto..|].
    exists (Z.b2z b). split; [done|]. destruct b; auto.
Qed.

Lemma check_binary_Ok v h : binary_value v → check_binary v h = (Ok tt, h).
Proof. intros [-> | [-> | [b ->]]]%binary_value_cases; by try destruct b. Qed.

(** An element that is not an integer equal to 0 or 1 is rejected, and
    the exception reports it. *)
Lemma check_binary_Raise v h :
  ¬ binary_value v →
  check_binary v h = (Raise (TypeError (InputNotAnInteger v)), h) ∨
  check_binary v h = (Raise (TypeError (InputNotBinary v)), h).
Proof.
  intros Hv. unfold check_binary.
  destruct (isinstance_int v) eqn:Hint; cbn; [|by left].
  destruct (in_0_1 v) eqn:H01; cbn; [|by right].
  exfalso. apply Hv. unfold in_0_1 in H01. unfold binary_value, is_bit.
  destruct (int_value v) as [z|]; [|done]. exists z. split; [done|].
  apply orb_true_iff in H01 as [H|H]; apply bool_decide_eq_true in H; auto.
Qed.

Lemma for_each_check_binary_Ok l h :
  Forall binary_value l → for_each check_binary l h = (Ok tt, h).
Proof.
  induction 1 as [|v l Hv _ IH]; [done|].
  cbn. by rewrite (bind_Ok _ _ _ _ _ (check_binary_Ok v h Hv)).
Qed.

Lemma State_get_next_state_binary h x s v :
  h !! x = Some (ObjState s) →
  binary_value v →
  State_get_next_state x v h =
    (Ok (transitions s !! default 0%Z (int_value v)), h).
Proof.
  intros Hx Hv. unfold State_get_next_state.
  rewrite (bind_Ok _ _ _ _ _ (get_State_Ok _ _ _ Hx)).
  by apply binary_value_cases in Hv as [-> | [-> | [b ->]]].
Qed.

Lemma mod3_heap_self_ne h self s0 s1 s2 cur :
  mod3_heap h self s0 s1 s2 cur → self ≠ s0 ∧ self ≠ s1 ∧ self ≠ s2.
Proof.
  intros [Hself H0 H1 H2]. unfold mod3_state in *.
  repeat split; intros ->; congruence.
Qed.

Lemma mod3_heap_store h self s0 s1 s2 cur cur' :
  mod3_heap h self s0 s1 s2 cur →
  mod3_heap (<[self := ObjFSM (mkFSM cur' (mod3_registry s0 s1 s2))]> h)
            self s0 s1 s2 cur'.
Proof.
  intros Hm. destruct (mod3_heap_self_ne _ _ _ _ _ _ Hm) as (N0 & N1 & N2).
  destruct Hm as [Hself H0 H1 H2].
  split; [apply lookup_insert_eq|by rewrite lookup_insert_ne..].
Qed.

Lemma state_of_cases s0 s1 s2 r :
  (r mod 3 = 0 ∧ state_of s0 s1 s2 (r mod 3) = s0 ∨
   r mod 3 = 1 ∧ state_of s0 s1 s2 (r mod 3) = s1 ∨
   r mod 3 = 2 ∧ state_of s0 s1 s2 (r mod 3) = s2)%Z.
Proof.
  pose proof (Z.mod_pos_bound r 3 ltac:(lia)) as Hr.
  unfold state_of. repeat case_bool_decide; lia || auto.
Qed.

(** One bit moves the machine from remainder [r] to [(2 r + b) mod 3]. *)
Lemma mod3_process_symbol h self s0 s1 s2 r v :
  mod3_heap h self s0 s1 s2 (state_of s0 s1 s2 (r mod 3)) →
  binary_value v →
  let r' := (2 * r + default 0 (int_value v))%Z in
  process_symbol self v h =
    (Ok tt, <[self := ObjFSM (mkFSM (state_of s0 s1 s2 (r' mod 3))
                                     (mod3_registry s0 s1 s2))]> h).
Proof.
  intros Hm Hv r'. pose proof Hm as [Hself H0 H1 H2].
  unfold process_symbol.
  rewrite (bind_Ok _ _ _ _ _ (get_FSM_Ok _ _ _ Hself)). cbn [current_state states].
  assert ((r' mod 3 = (2 * (r mod 3) + default 0 (int_value v)) mod 3)%Z) as ->.
  { subst r'. rewrite Z.add_mod, Z.mul_mod, (Z.add_mod (2 * (r mod 3))),
      (Z.mul_mod 2 (r mod 3)), !Z.mod_mod by lia. done. }
  unfold mod3_state in *.
  destruct (state_of_cases s0 s1 s2 r) as [[-> ->] | [[-> ->] | [-> ->]]];
    [rewrite (bind_Ok _ _ _ _ _ (State_get_next_state_binary _ _ _ _ H0 Hv))
    |rewrite (bind_Ok _ _ _ _ _ (State_get_next_state_binary _ _ _ _ H1 Hv))
    |rewrite (bind_Ok _ _ _ _ _ (State_get_next_state_binary _ _ _ _ H2 Hv))];
    apply binary_value_cases in Hv as [-> | [-> | [[] ->]]]; reflexivity.
Qed.

Lemma mod3_for_each h self s0 s1 s2 r l :
  mod3_heap h self s0 s1 s2 (state_of s0 s1 s2 (r mod 3)) →
  Forall binary_value l →
  for_each (process_symbol self) l h =
    (Ok tt,
     <[self := ObjFSM (mkFSM (state_of s0 s1 s2 (horner r (int_values l) mod 3))
                             (mod3_registry s0 s1 s2))]> h).
Proof.
  intros Hm Hl. revert r h Hm.
  induction Hl as [|v l Hv _ IH]; intros r h Hm.
  - cbn. unfold ret. f_equal. symmetry. apply insert_id, Hm.
  - cbn [for_each].
    rewrite (bind_Ok _ _ _ _ _ (mod3_process_symbol _ _ _ _ _ _ _ Hm Hv)).
    rewrite (IH (2 * r + default 0 (int_value v))%Z)
      by (by eapply mod3_heap_store).
    by rewrite insert_insert_eq.
Qed.

(** Decoding the name of the state that stands for a remainder. *)
Lemma mod3_decode h self s0 s1 s2 cur r :
  mod3_heap h self s0 s1 s2 cur →
  (s <- get_State (state_of s0 s1 s2 (r mod 3)) ;;
   int_of_str (slice_from_1 (name s))) h = (Ok (r mod 3)%Z, h).
Proof.
  intros [Hself H0 H1 H2]. unfold mod3_state in *.
  destruct (state_of_cases s0 s1 s2 r) as [[-> ->] | [[-> ->] | [-> ->]]];
    [rewrite (bind_Ok _ _ _ _ _ (get_State_Ok _ _ _ H0))
    |rewrite (bind_Ok _ _ _ _ _ (get_State_Ok _ _ _ H1))
    |rewrite (bind_Ok _ _ _ _ _ (get_State_Ok _ _ _ H2))];
    reflexivity.
Qed.

Lemma mod3_process_input h self s0 s1 s2 r l :
  mod3_heap h self s0 s1 s2 (state_of s0 s1 s2 (r mod 3)) →
  l ≠ [] →
  Forall binary_value l →
  FSM_process_input self (PyList l) h =
    (Ok (state_of s0 s1 s2 (horner r (int_values l) mod 3)),
     <[self := ObjFSM (mkFSM (state_of s0 s1 s2 (horner r (int_values l) mod 3))
                             (mod3_registry s0 s1 s2))]> h).
Proof.
  intros Hm Hne Hl.
  unfold FSM_process_input. cbn [has_iter truthy negb iter_elems].
  rewrite bool_decide_eq_false_2 by done. cbn [negb].
  rewrite (bind_Ok _ _ _ _ _ (mod3_for_each _ _ _ _ _ _ _ Hm Hl)).
  by rewrite (bind_Ok _ _ _ _ _ (get_FSM_Ok _ _ _ (lookup_insert_eq _ _ _))).
Qed.

(** A valid call on a machine standing at remainder [r]. *)
Lemma mod3_process_three_mod_input h self s0 s1 s2 r l :
  mod3_heap h self s0 s1 s2 (state_of s0 s1 s2 (r mod 3)) →
  l ≠ [] →
  Forall binary_value l →
  let r' := (horner r (int_values l) mod 3)%Z in
  ∃ h', process_three_mod_input self (PyList l) h = (Ok r', h') ∧
        mod3_heap h' self s0 s1 s2 (state_of s0 s1 s2 (r' mod 3)).
Proof.
  intros Hm Hne Hl r'. eexists. split.
  - unfold process_three_mod_input.
    rewrite (bind_Ok _ _ _ _ _ (for_each_check_binary_Ok _ _ Hl)).
    rewrite (bind_Ok _ _ _ _ _ (mod3_process_input _ _ _ _ _ _ _ Hm Hne Hl)).
    eapply mod3_decode, mod3_heap_store, Hm.
  - subst r'. rewrite Z.mod_mod by lia. by eapply mod3_heap_store.
Qed.

Ltac all_bits :=
  repeat (apply List.Forall_cons; [unfold is_bit; lia|]); apply List.Forall_nil.

Lemma binary_value_PyInt b : is_bit b → binary_value (PyInt b).
Proof. intros Hb. by exists b. Qed.

Lemma Forall_binary_value_ints seq :
  Forall is_bit seq → Forall binary_value (PyInt <$> seq).
Proof.
  induction 1; constructor; [by apply binary_value_PyInt|done].
Qed.

Lemma int_values_ints seq : int_values (PyInt <$> seq) = seq.
Proof.
  unfold int_values. rewrite <- list_fmap_compose.
  induction seq as [|b seq IH]; [done|]. cbn. by rewrite IH.
Qed.

Lemma ints_nonempty seq : (1 ≤ length seq)%nat → PyInt <$> seq ≠ [].
Proof. destruct seq; cbn; [lia|done]. Qed.

(** C1. For every sequence of bits of length between 1 and 30,
    [process_three_mod_input] on a freshly constructed [ModThreeFSM]
    (which construction always yields, in state S0) returns
    [binary_to_decimal(seq) % 3]. *)
Theorem process_three_mod_input_correct h0 seq :
  (1 ≤ length seq ≤ 30)%nat →
  Forall is_bit seq →
  ∃ self h h',
    ModThreeFSM_init h0 = (Ok self, h) ∧
    process_three_mod_input self (ints seq) h =
      (Ok (binary_to_decimal seq mod 3)%Z, h').
Proof.
  intros [Hlen _] Hbits.
  destruct (ModThreeFSM_init_layout h0) as (self & s0 & s1 & s2 & h & Hinit & Hm).
  destruct (mod3_process_three_mod_input h self s0 s1 s2 0 (PyInt <$> seq))
    as (h' & Hrun & _);
    [done|by apply ints_nonempty|by apply Forall_binary_value_ints|].
  exists self, h, h'. split; [done|].
  by rewrite int_values_ints, <- binary_to_decimal_horner in Hrun.
Qed.

(** Scenario B of the tests: 731 = 1011011011 in binary. *)
Lemma process_three_mod_input_correct_witness :
  ∃ self h h',
    ModThreeFSM_init ∅ = (Ok self, h) ∧
    process_three_mod_input self (ints [1; 0; 1; 1; 0; 1; 1; 0; 1; 1]%Z) h =
      (Ok (binary_to_decimal [1; 0; 1; 1; 0; 1; 1; 0; 1; 1] mod 3)%Z, h').
Proof.
  apply (process_three_mod_input_correct ∅ [1; 0; 1; 1; 0; 1; 1; 0; 1; 1]%Z).
  - cbn. lia.
  - all_bits.
Defined.

(** C10. [process_three_mod_input] does not reset the machine: after a
    first valid call with [seq1] on a fresh [ModThreeFSM], a second valid
    call with [seq2] returns [binary_to_decimal(seq1 + seq2) % 3], the
    remainder of the concatenation. *)
Theorem process_three_mod_input_twice h0 seq1 seq2 :
  seq1 ≠ [] → seq2 ≠ [] →
  Forall is_bit seq1 → Forall is_bit seq2 →
  ∃ self h h1 h2,
    ModThreeFSM_init h0 = (Ok self, h) ∧
    process_three_mod_input self (ints seq1) h =
      (Ok (binary_to_decimal seq1 mod 3)%Z, h1) ∧
    process_three_mod_input self (ints seq2) h1 =
      (Ok (binary_to_decimal (seq1 ++ seq2) mod 3)%Z, h2).
Proof.
  intros Hne1 Hne2 Hbits1 Hbits2.
  destruct (ModThreeFSM_init_layout h0) as (self & s0 & s1 & s2 & h & Hinit & Hm).
  destruct (mod3_process_three_mod_input h self s0 s1 s2 0 (PyInt <$> seq1))
    as (h1 & Hrun1 & Hm1);
    [done|by destruct seq1|by apply Forall_binary_value_ints|].
  cbn zeta in Hrun1, Hm1. rewrite int_values_ints in Hrun1, Hm1.
  destruct (mod3_process_three_mod_input h1 self s0 s1 s2
              (horner 0 seq1 mod 3) (PyInt <$> seq2))
    as (h2 & Hrun2 & _);
    [done|by destruct seq2|by apply Forall_binary_value_ints|].
  cbn zeta in Hrun2. rewrite int_values_ints, horner_mod_3 in Hrun2.
  exists self, h, h1, h2.
  by rewrite !binary_to_decimal_horner, horner_app.
Qed.

Lemma process_three_mod_input_twice_witness :
  ∃ self h h1 h2,
    ModThreeFSM_init ∅ = (Ok self, h) ∧
    process_three_mod_input self (ints [1; 0]%Z) h =
      (Ok (binary_to_decimal [1; 0] mod 3)%Z, h1) ∧
    process_three_mod_input self (ints [1; 1; 1]%Z) h1 =
      (Ok (binary_to_decimal ([1; 0] ++ [1; 1; 1]) mod 3)%Z, h2).
Proof.
  apply (process_three_mod_input_twice ∅ [1; 0]%Z [1; 1; 1]%Z); try done;
    all_bits.
Defined.

(** C9. After [ModThreeFSM()], every registered state (there are exactly
    S0, S1 and S2) has a transition on both 0 and 1; hence every argument
    that passes the validation of [process_three_mod_input], a non-empty
    list of values each equal to 0 or 1, makes the call return, without
    any exception, a remainder among 0, 1 and 2. *)
Theorem process_three_mod_input_total h0 :
  ∃ self h m,
    ModThreeFSM_init h0 = (Ok self, h) ∧
    h !! self = Some (ObjFSM m) ∧
    (∀ n, is_Some (states m !! n) ↔ n ∈ ["S0"; "S1"; "S2"]) ∧
    (∀ n x b, states m !! n = Some x → is_bit b →
       ∃ t, State_get_next_state x (PyInt b) h = (Ok (Some t), h)) ∧
    (∀ l, l ≠ [] → Forall binary_value l →
       ∃ r h', process_three_mod_input self (PyList l) h = (Ok r, h') ∧
               (0 ≤ r ≤ 2)%Z).
Proof.
  destruct (ModThreeFSM_init_layout h0) as (self & s0 & s1 & s2 & h & Hinit & Hm).
  exists self, h, (mkFSM s0 (mod3_registry s0 s1 s2)).
  pose proof Hm as [Hself H0 H1 H2].
  split; [done|]. split; [done|]. cbn [states]. unfold mod3_registry.
  split; [|split].
  - intros n. rewrite !elem_of_cons, elem_of_nil. split.
    + intros [x Hx]. rewrite !lookup_insert_Some, lookup_singleton_Some in Hx.
      destruct Hx as [[<- _] | [_ [[<- _] | [_ [<- _]]]]]; auto 10.
    + intros [-> | [-> | [-> | []]]]; by eexists.
  - intros n x b Hx Hb. unfold mod3_state in *.
    rewrite !lookup_insert_Some, lookup_singleton_Some in Hx.
    destruct Hx as [[<- <-] | [_ [[<- <-] | [_ [<- <-]]]]];
      erewrite State_get_next_state_int by done;
      destruct Hb as [-> | ->]; by eexists.
  - intros l Hne Hl.
    destruct (mod3_process_three_mod_input h self s0 s1 s2 0 l)
      as (h' & Hrun & _); [done..|].
    eexists _, h'. split; [exact Hrun|].
    pose proof (Z.mod_pos_bound (horner 0 (int_values l)) 3). lia.
Qed.

Ltac table_row Hsrc Htgt :=
  split; [done|]; split; [done|];
  split; [by (cbn [states]; unfold mod3_registry; simplify_map_eq)|];
  split; [exact Hsrc|]; split; [done|]; split; [done|];
  split; [by erewrite State_get_next_state_int by exact Hsrc|];
  split; [exact Htgt|done].

(** C5. On a fresh [ModThreeFSM], for each registered state name among
    S0, S1, S2 and each bit: the state decodes (the integer after the
    first character of its name) to a remainder [r], it has a transition
    on the bit, and the target decodes to [(r * 2 + bit) mod 3]. *)
Theorem mod3_transition_table h0 n b :
  n ∈ ["S0"; "S1"; "S2"] →
  is_bit b →
  ∃ self h m src s r tgt t,
    ModThreeFSM_init h0 = (Ok self, h) ∧
    h !! self = Some (ObjFSM m) ∧
    states m !! n = Some src ∧
    h !! src = Some (ObjState s) ∧ name s = n ∧
    int_of_str (slice_from_1 (name s)) h = (Ok r, h) ∧
    State_get_next_state src (PyInt b) h = (Ok (Some tgt), h) ∧
    h !! tgt = Some (ObjState t) ∧
    int_of_str (slice_from_1 (name t)) h = (Ok ((r * 2 + b) mod 3)%Z, h).
Proof.
  intros Hn Hb.
  destruct (ModThreeFSM_init_layout h0) as (self & s0 & s1 & s2 & h & Hinit & Hm).
  pose proof Hm as [Hself H0 H1 H2]. unfold mod3_state in *.
  exists self, h, (mkFSM s0 (mod3_registry s0 s1 s2)).
  rewrite !elem_of_cons, elem_of_nil in Hn.
  pose (S0 := mkState "S0" true (<[1%Z := s1]> (<[0%Z := s0]> ∅))).
  pose (S1 := mkState "S1" true (<[1%Z := s0]> (<[0%Z := s2]> ∅))).
  pose (S2 := mkState "S2" true (<[1%Z := s2]> (<[0%Z := s1]> ∅))).
  destruct Hn as [-> | [-> | [-> | []]]]; destruct Hb as [-> | ->];
    [exists s0, S0, 0%Z, s0, S0; table_row H0 H0
    |exists s0, S0, 0%Z, s1, S1; table_row H0 H1
    |exists s1, S1, 1%Z, s2, S2; table_row H1 H2
    |exists s1, S1, 1%Z, s0, S0; table_row H1 H0
    |exists s2, S2, 2%Z, s1, S1; table_row H2 H1
    |exists s2, S2, 2%Z, s2, S2; table_row H2 H2].
Qed.

Lemma mod3_transition_table_witness :
  ∃ self h m src s r tgt t,
    ModThreeFSM_init ∅ = (Ok self, h) ∧
    h !! self = Some (ObjFSM m) ∧
    states m !! "S1" = Some src ∧
    h !! src = Some (ObjState s) ∧ name s = "S1" ∧
    int_of_str (slice_from_1 (name s)) h = (Ok r, h) ∧
    State_get_next_state src (PyInt 0) h = (Ok (Some tgt), h) ∧
    h !! tgt = Some (ObjState t) ∧
    int_of_str (slice_from_1 (name t)) h = (Ok ((r * 2 + 0) mod 3)%Z, h).
Proof.
  apply (mod3_transition_table ∅ "S1" 0%Z).
  - apply list_elem_of_In. cbn. auto.
  - by left.
Defined.

(** ** class ModThreeFSM: rejected arguments *)

Lemma binary_value_dec v : {binary_value v} + {¬ binary_value v}.
Proof.
  destruct v as [|b|z|s|l|l];
    try (right; intros [? | [? | [? ?]]]%binary_value_cases; discriminate).
  - left. apply binary_value_cases. eauto.
  - destruct (decide (z = 0%Z)) as [->|N0];
      [left; apply binary_value_cases; auto|].
    destruct (decide (z = 1%Z)) as [->|N1];
      [left; apply binary_value_cases; auto|].
    right. intros [? | [? | [? ?]]]%binary_value_cases; congruence.
Qed.

(** A list with an invalid element splits at the first one. *)
Lemma first_offending l :
  ¬ Forall binary_value l →
  ∃ pre v post, l = pre ++ v :: post ∧ Forall binary_value pre ∧ ¬ binary_value v.
Proof.
  induction l as [|v l IH]; intros Hl.
  - destruct Hl. constructor.
  - destruct (binary_value_dec v) as [Hv|Hv].
    + destruct IH as (pre & w & post & -> & Hpre & Hw).
      { intros Hall. apply Hl. by constructor. }
      exists (v :: pre), w, post. repeat split; [|done]. by constructor.
    + exists [], v, l. repeat split; [constructor|done].
Qed.

(** C7. [process_three_mod_input] raises the not-a-list [TypeError] for
    every argument that is not a list; the empty-input [ValueError] for the
    empty list; and, for every list holding an element that is not an
    integer equal to 0 or 1, a [TypeError] reporting the first such
    element.  In each case the heap after the call is the heap before it:
    no transition was made, and the machine's [current_state] is what it
    was. *)
Theorem process_three_mod_input_rejects self h :
  (∀ v, (∀ l, v ≠ PyList l) →
     process_three_mod_input self v h = (Raise (TypeError (SequenceNotAList v)), h)) ∧
  process_three_mod_input self (PyList []) h = (Raise (ValueError SequenceEmpty), h) ∧
  (∀ l, ¬ Forall binary_value l →
     ∃ pre v post e,
       l = pre ++ v :: post ∧ Forall binary_value pre ∧ ¬ binary_value v ∧
       (e = InputNotAnInteger v ∨ e = InputNotBinary v) ∧
       process_three_mod_input self (PyList l) h = (Raise (TypeError e), h)).
Proof.
  split; [|split].
  - intros v Hv. destruct v as [| | | |l|]; try done. by destruct (Hv l).
  - done.
  - intros l (pre & v & post & -> & Hpre & Hv)%first_offending.
    assert (∃ e, (e = InputNotAnInteger v ∨ e = InputNotBinary v) ∧
                 check_binary v h = (Raise (TypeError e), h)) as (e & He & Hchk)
      by (destruct (check_binary_Raise v h Hv); eauto).
    exists pre, v, post, e. repeat split; try done.
    unfold process_three_mod_input. apply bind_Raise.
    rewrite for_each_app.
    rewrite (bind_Ok _ _ _ _ _ (for_each_check_binary_Ok _ _ Hpre)).
    cbn [for_each]. by apply bind_Raise.
Qed.

(** ** Scenarios of the examples and tests *)

Example example_fsm_built :
  (example_fsm ∅).1 = Ok 4%positive.
Proof. vm_compute. reflexivity. Qed.

(** [example_fsm.py]: the input 1,0,1,0,1 (21 in binary) ends in S0,
    which is not accepting. *)
Example example_fsm_scenario :
  ((fsm <- example_fsm ;;
    final_state <- FSM_process_input fsm (ints [1; 0; 1; 0; 1]%Z) ;;
    s <- get_State final_state ;;
    accepting <- FSM_is_accepting fsm ;;
    ret (name s, accepting)) ∅).1 = Ok ("S0", false).
Proof. vm_compute. reflexivity. Qed.

(** Scenario C. *)
Example mod3_scenario_011 :
  ((m <- ModThreeFSM_init ;; process_three_mod_input m (ints [0; 1; 1]%Z)) ∅).1
  = Ok 0%Z.
Proof. vm_compute. reflexivity. Qed.

Example mod3_scenario_10 :
  ((m <- ModThreeFSM_init ;; process_three_mod_input m (ints [1; 0]%Z)) ∅).1
  = Ok 2%Z.
Proof. vm_compute. reflexivity. Qed.

(** [test_invalid_input_format]. *)
Example mod3_rejects_string :
  (m <- ModThreeFSM_init ;; process_three_mod_input m (PyStr "101")) ∅
  = (Raise (TypeError (SequenceNotAList (PyStr "101"))), (ModThreeFSM_init ∅).2).
Proof. vm_compute. reflexivity. Qed.

Example mod3_rejects_string_element :
  (m <- ModThreeFSM_init ;;
   process_three_mod_input m (PyList [PyInt 1; PyStr "0"; PyInt 1])) ∅
  = (Raise (TypeError (InputNotAnInteger (PyStr "0"))), (ModThreeFSM_init ∅).2).
Proof. vm_compute. reflexivity. Qed.

Example mod3_rejects_2 :
  (m <- ModThreeFSM_init ;; process_three_mod_input m (ints [1; 2; 1]%Z)) ∅
  = (Raise (TypeError (InputNotBinary (PyInt 2))), (ModThreeFSM_init ∅).2).
Proof. vm_compute. reflexivity. Qed.

(** Booleans are integers equal to 0 and 1, and are accepted:
    [True, False] reads as binary 10. *)
Example mod3_accepts_booleans :
  ((m <- ModThreeFSM_init ;;
    process_three_mod_input m (PyList [PyBool true; PyBool false])) ∅).1
  = Ok 2%Z.
Proof. vm_compute. reflexivity. Qed.

Lemma process_input_is_fold_witness :
  FSM_process_input 4%positive (ints [1; 0; 1; 0]%Z) (example_fsm ∅).2 =
    (Ok 2%positive,
     <[4%positive := ObjFSM (mkFSM 2%positive
         (<["S2" := 3%positive]> (<["S1" := 2%positive]> {["S0" := 1%positive]})))]>
       (example_fsm ∅).2).
Proof.
  refine (process_input_is_fold (example_fsm ∅).2 4%positive
            (mkFSM 1%positive
               (<["S2" := 3%positive]> (<["S1" := 2%positive]> {["S0" := 1%positive]})))
            [1; 0; 1; 0]%Z 2%positive _ _ _).
  - vm_compute. reflexivity.
  - discriminate.
  - vm_compute. reflexivity.
Defined.

Lemma process_input_no_transition_witness :
  FSM_process_input 4%positive (ints ([0] ++ 1 :: [0; 0])%Z) (test_fsm ∅).2 =
    (Raise (ValueError (NoTransition (PyInt 1) "S1")),
     <[4%positive := ObjFSM (mkFSM 2%positive
         (<["S2" := 3%positive]> (<["S1" := 2%positive]> {["S0" := 1%positive]})))]>
       (test_fsm ∅).2).
Proof.
  refine (process_input_no_transition (test_fsm ∅).2 4%positive
            (mkFSM 1%positive
               (<["S2" := 3%positive]> (<["S1" := 2%positive]> {["S0" := 1%positive]})))
            [0]%Z 1%Z [0; 0]%Z 2%positive (mkState "S1" true ∅) _ _ _ _).
  - vm_compute. reflexivity.
  - vm_compute. reflexivity.
  - vm_compute. reflexivity.
  - reflexivity.
Defined.

(** ** The registry invariant *)

(** A property of the heap that holds after the first part of a sequence
    and that the rest preserves holds at the end, whatever the outcome. *)
Lemma bind_heap {A B} (P : heap → Prop) (m : M A) (k : A → M B) h :
  P (m h).2 →
  (∀ a h1, m h = (Ok a, h1) → P (k a h1).2) →
  P (bind m k h).2.
Proof.
  unfold bind. destruct (m h) as [[a|e] h1]; cbn; intros H1 H2; [|done].
  by apply H2.
Qed.

Lemma check_isinstance_State_heap x e h : (check_isinstance_State x e h).2 = h.
Proof. unfold check_isinstance_State. by destruct (isinstance_State h x). Qed.

Lemma check_isinstance_State_inv x e h a h1 :
  check_isinstance_State x e h = (Ok a, h1) → h1 = h.
Proof.
  unfold check_isinstance_State. destruct (isinstance_State h x); by intros [=].
Qed.

Lemma dict_get_heap d key h : (dict_get d key h).2 = h.
Proof. unfold dict_get. by destruct (hashable key). Qed.

Lemma State_get_next_state_heap x v h : (State_get_next_state x v h).2 = h.
Proof.
  unfold State_get_next_state, bind.
  destruct (get_State x h) as [[s|e] h1] eqn:Hg.
  - apply get_State_inv in Hg as [_ ->]. apply dict_get_heap.
  - cbn. by rewrite <- (get_State_heap h x), Hg.
Qed.

Lemma State_get_next_state_inv x v h t h1 :
  State_get_next_state x v h = (Ok (Some t), h1) →
  h1 = h ∧ ∃ s sym, h !! x = Some (ObjState s) ∧ transitions s !! sym = Some t.
Proof.
  unfold State_get_next_state, bind.
  destruct (get_State x h) as [[s|e] h2] eqn:Hg; [|done].
  apply get_State_inv in Hg as [Hs ->].
  unfold dict_get. destruct (hashable v); [|done].
  unfold ret. intros [= Ht <-]. split; [done|].
  destruct (int_value v) as [z|]; [|done]. cbn in Ht. eauto.
Qed.

Lemma current_state_registered_init h x self h' :
  FSM_init x h = (Ok self, h') → current_state_registered h' self.
Proof.
  unfold FSM_init, bind.
  destruct (check_isinstance_State _ _ h) as [[[]|e] h1] eqn:Hc; [|done].
  apply check_isinstance_State_inv in Hc as ->.
  destruct (get_State x h) as [[s|e] h1] eqn:Hg; [|done].
  apply get_State_inv in Hg as [Hs ->].
  unfold alloc. intros [= <- <-].
  eexists. split; [apply lookup_insert_eq|].
  exists (name s). cbn. apply lookup_singleton_eq.
Qed.

Lemma current_state_registered_add_state h self state :
  current_state_registered h self →
  current_state_registered (FSM_add_state self state h).2 self.
Proof.
  intros Hinv. unfold FSM_add_state.
  apply bind_heap; [by rewrite check_isinstance_State_heap|].
  intros [] h1 ->%check_isinstance_State_inv.
  apply bind_heap; [by rewrite get_State_heap|].
  intros s h1 [Hs ->]%get_State_inv.
  apply bind_heap; [by rewrite get_FSM_heap|].
  intros m h1 [Hm ->]%get_FSM_inv.
  case_bool_decide as Hdup; [done|]. cbn.
  destruct Hinv as (m' & Hm' & n & Hn).
  assert (m' = m) as -> by congruence.
  eexists. split; [apply lookup_insert_eq|].
  exists n. cbn. rewrite lookup_insert_ne; [done|].
  intros <-. apply Hdup. eauto.
Qed.

(** Writing a [State] object leaves the machine object as it is. *)
Lemma current_state_registered_State_add_transition h self x sym t :
  current_state_registered h self →
  current_state_registered (State_add_transition x sym t h).2 self.
Proof.
  intros Hinv.
  destruct (State_add_transition_heap h x sym t) as [->|(s & Hs & _ & _ & ->)];
    [done|].
  destruct Hinv as (m & Hm & Hreg). exists m. split; [|done].
  cbn. rewrite lookup_insert_ne; [done|]. intros ->. congruence.
Qed.

Lemma current_state_registered_add_transition h self from_name sym to_name :
  current_state_registered h self →
  current_state_registered (FSM_add_transition self from_name sym to_name h).2 self.
Proof.
  intros Hinv. unfold FSM_add_transition.
  apply bind_heap; [by rewrite get_FSM_heap|].
  intros m h1 [Hm ->]%get_FSM_inv.
  destruct (states m !! from_name) as [from_state|]; [|done].
  destruct (states m !! to_name) as [to_state|]; [|done].
  by apply current_state_registered_State_add_transition.
Qed.

Lemma FSM_is_accepting_heap self h : (FSM_is_accepting self h).2 = h.
Proof.
  unfold FSM_is_accepting, bind.
  destruct (get_FSM self h) as [[m|e] h1] eqn:Hm.
  - apply get_FSM_inv in Hm as [_ ->].
    destruct (get_State (current_state m) h) as [[s|e] h1] eqn:Hs.
    + by apply get_State_inv in Hs as [_ ->].
    + cbn. by rewrite <- (get_State_heap h (current_state m)), Hs.
  - cbn. by rewrite <- (get_FSM_heap h self), Hm.
Qed.

(** The two invariants together are kept by one step of the loop,
    whether it moves the machine or raises. *)
Lemma process_symbol_registered h self v :
  current_state_registered h self → targets_registered h self →
  current_state_registered (process_symbol self v h).2 self ∧
  targets_registered (process_symbol self v h).2 self.
Proof.
  intros Hcur Htgt. unfold process_symbol.
  apply (bind_heap (λ h', current_state_registered h' self ∧
                          targets_registered h' self));
    [by rewrite get_FSM_heap|].
  intros m h1 [Hm ->]%get_FSM_inv.
  apply (bind_heap (λ h', current_state_registered h' self ∧
                          targets_registered h' self));
    [by rewrite State_get_next_state_heap|].
  intros [t|] h1 Hnext.
  - apply State_get_next_state_inv in Hnext as (-> & s & sym & Hs & Ht).
    destruct Hcur as (m' & Hm' & n & Hn). assert (m' = m) as -> by congruence.
    destruct Htgt as (m' & Hm'' & Hclosed). assert (m' = m) as -> by congruence.
    pose proof (Hclosed _ _ _ _ _ Hn Hs Ht) as Hreg.
    cbn. split.
    + eexists. split; [apply lookup_insert_eq|done].
    + eexists. split; [apply lookup_insert_eq|]. cbn [states].
      intros n' x s' sym' t' Hx Hs' Ht'.
      destruct (decide (x = self)) as [->|Hne];
        [by rewrite lookup_insert_eq in Hs'|].
      rewrite lookup_insert_ne in Hs' by done. eauto.
  - assert (h1 = h) as ->.
    { pose proof (State_get_next_state_heap (current_state m) v h) as Hh.
      by rewrite Hnext in Hh. }
    apply (bind_heap (λ h', current_state_registered h' self ∧
                            targets_registered h' self));
      [by rewrite get_State_heap|].
    by intros s h1 [_ ->]%get_State_inv.
Qed.

Lemma for_each_process_symbol_registered h self l :
  current_state_registered h self → targets_registered h self →
  current_state_registered (for_each (process_symbol self) l h).2 self ∧
  targets_registered (for_each (process_symbol self) l h).2 self.
Proof.
  revert h. induction l as [|v l IH]; intros h Hcur Htgt; [done|].
  cbn [for_each].
  apply (bind_heap (λ h', current_state_registered h' self ∧
                          targets_registered h' self)).
  - by apply process_symbol_registered.
  - intros [] h1 Hstep.
    pose proof (process_symbol_registered h self v Hcur Htgt) as Hinv.
    rewrite Hstep in Hinv. destruct Hinv. by apply IH.
Qed.

Lemma process_input_registered h self input :
  current_state_registered h self → targets_registered h self →
  current_state_registered (FSM_process_input self input h).2 self ∧
  targets_registered (FSM_process_input self input h).2 self.
Proof.
  intros Hcur Htgt. unfold FSM_process_input.
  destruct (negb (has_iter input)); [done|].
  destruct (negb (truthy input)); [done|].
  apply (bind_heap (λ h', current_state_registered h' self ∧
                          targets_registered h' self)).
  - by apply for_each_process_symbol_registered.
  - intros [] h1 Hloop.
    pose proof (for_each_process_symbol_registered h self (iter_elems input)
                  Hcur Htgt) as Hinv.
    rewrite Hloop in Hinv. cbn [snd] in Hinv.
    apply (bind_heap (λ h', current_state_registered h' self ∧
                            targets_registered h' self));
      [by rewrite get_FSM_heap|].
    by intros m h2 [_ ->]%get_FSM_inv.
Qed.

(** [FSM.add_transition] wires registered states only. *)
Lemma targets_registered_add_transition h self from_name sym to_name :
  targets_registered h self →
  targets_registered (FSM_add_transition self from_name sym to_name h).2 self.
Proof.
  intros Htgt. unfold FSM_add_transition.
  apply bind_heap; [by rewrite get_FSM_heap|].
  intros m h1 [Hm ->]%get_FSM_inv.
  destruct (states m !! from_name) as [from_state|] eqn:Hfrom; [|done].
  destruct (states m !! to_name) as [to_state|] eqn:Hto; [|done].
  destruct (State_add_transition_heap h from_state sym to_state)
    as [->|(s & Hs & Hfree & _ & ->)]; [done|].
  destruct Htgt as (m' & Hm' & Hclosed). assert (m' = m) as -> by congruence.
  exists m. cbn. split.
  { rewrite lookup_insert_ne; [done|]. intros ->. congruence. }
  intros n x s' sym' t Hx Hs' Ht.
  destruct (decide (x = from_state)) as [->|Hne].
  - rewrite lookup_insert_eq in Hs'. injection Hs' as <-. cbn in Ht.
    destruct (decide (sym' = sym)) as [->|Hsym].
    + rewrite lookup_insert_eq in Ht. injection Ht as <-. by exists to_name.
    + rewrite lookup_insert_ne in Ht by done. eauto.
  - rewrite lookup_insert_ne in Hs' by done. eauto.
Qed.

(** The executable tests decide the invariants. *)
Lemma registeredb_true m x : registeredb m x = true ↔ registered m x.
Proof.
  unfold registeredb, registered. rewrite bool_decide_eq_true.
  apply elem_of_map_img.
Qed.

Lemma current_state_registeredb_true h self :
  current_state_registeredb h self = true ↔ current_state_registered h self.
Proof.
  unfold current_state_registeredb, current_state_registered.
  destruct (h !! self) as [[s|m]|] eqn:Hself.
  - split; [done|]. by intros (? & [=] & _).
  - rewrite registeredb_true. split; [eauto|].
    by intros (? & [= <-] & ?).
  - split; [done|]. by intros (? & [=] & _).
Qed.

Lemma targets_registeredb_true h self :
  targets_registeredb h self = true ↔ targets_registered h self.
Proof.
  unfold targets_registeredb, targets_registered.
  destruct (h !! self) as [[s|m]|] eqn:Hself.
  - split; [done|]. by intros (? & [=] & _).
  - rewrite bool_decide_eq_true. split.
    + intros Hall. exists m. split; [done|].
      intros n x s sym t Hx Hs Ht.
      specialize (Hall n x Hx). unfold state_targets_registeredb in Hall.
      rewrite Hs, bool_decide_eq_true in Hall.
      by apply registeredb_true, (Hall sym t Ht).
    + intros (m' & [= <-] & Hclosed) n x Hx.
      unfold state_targets_registeredb.
      destruct (h !! x) as [[s|?]|] eqn:Hs; [|done..].
      apply bool_decide_eq_true. intros sym t Ht.
      apply registeredb_true. eauto.
  - split; [done|]. by intros (? & [=] & _).
Qed.

(** The invariant of C4 fails on the code: a machine built on a state
    that was wired, by [State.add_transition], to a state never added to
    the machine satisfies it after construction, yet a successful
    [process_input] takes [current_state] out of the registry. *)
Lemma process_input_leaves_registry :
  ∃ self h x h',
    stray_fsm ∅ = (Ok self, h) ∧
    current_state_registered h self ∧
    FSM_process_input self (ints [0%Z]) h = (Ok x, h') ∧
    ¬ current_state_registered h' self.
Proof.
  exists 3%positive, (stray_fsm ∅).2, 2%positive,
         (FSM_process_input 3%positive (ints [0%Z]) (stray_fsm ∅).2).2.
  split; [by vm_compute|].
  split; [apply current_state_registeredb_true; by vm_compute|].
  split; [by vm_compute|].
  intros Hreg%current_state_registeredb_true. by vm_compute in Hreg.
Qed.

(** C4, as the code has it.  The machine's [current_state] is in its
    registry after construction; [add_state], [add_transition] and
    [is_accepting] keep it there, whether they return or raise; and
    [process_input], returning or raising, keeps it there on a machine
    whose registered states have all their transitions leading to
    registered states, a condition that [process_input] and
    [FSM.add_transition] themselves maintain. *)
Theorem current_state_registered_invariant :
  (∀ h x self h', FSM_init x h = (Ok self, h') → current_state_registered h' self) ∧
  (∀ h self,
     current_state_registered h self →
     (∀ state, current_state_registered (FSM_add_state self state h).2 self) ∧
     (∀ from_name sym to_name,
        current_state_registered
          (FSM_add_transition self from_name sym to_name h).2 self) ∧
     current_state_registered (FSM_is_accepting self h).2 self ∧
     (targets_registered h self →
      (∀ input,
         current_state_registered (FSM_process_input self input h).2 self ∧
         targets_registered (FSM_process_input self input h).2 self) ∧
      (∀ from_name sym to_name,
         targets_registered
           (FSM_add_transition self from_name sym to_name h).2 self))).
Proof.
  split; [apply current_state_registered_init|].
  intros h self Hcur. repeat split.
  - intros state. by apply current_state_registered_add_state.
  - intros ???. by apply current_state_registered_add_transition.
  - by rewrite FSM_is_accepting_heap.
  - by apply process_input_registered.
  - by apply process_input_registered.
  - intros ???. by apply targets_registered_add_transition.
Qed.

(** On the machine of [test_process_input]: registering again, and an
    input that fails at its second symbol, both leave [current_state] in
    the registry. *)
Lemma current_state_registered_invariant_witness :
  current_state_registered (FSM_add_state 4%positive 1%positive (test_fsm ∅).2).2
                           4%positive ∧
  current_state_registered
    (FSM_process_input 4%positive (ints [0; 1]%Z) (test_fsm ∅).2).2 4%positive.
Proof.
  destruct current_state_registered_invariant as [_ Hkeep].
  assert (current_state_registered (test_fsm ∅).2 4%positive) as Hcur.
  { apply current_state_registeredb_true. vm_compute. reflexivity. }
  assert (targets_registered (test_fsm ∅).2 4%positive) as Htgt.
  { apply targets_registeredb_true. vm_compute. reflexivity. }
  destruct (Hkeep (test_fsm ∅).2 4%positive Hcur) as (Hadd & _ & _ & Hrun).
  split; [apply Hadd|]. apply (Hrun Htgt).
Defined.

(** ** Further properties *)

(** X23. [is_accepting] has no side effect, so calling it twice in a row
    gives the same answer. *)
Theorem is_accepting_idempotent self h :
  (FSM_is_accepting self h).2 = h ∧
  FSM_is_accepting self (FSM_is_accepting self h).2 = FSM_is_accepting self h.
Proof.
  split; [apply FSM_is_accepting_heap|]. by rewrite FSM_is_accepting_heap.
Qed.

(** ** Rejected operations *)

Lemma State_add_transition_Raise h self sym target e h' :
  State_add_transition self sym target h = (Raise e, h') → h' = h.
Proof.
  intros Hadd.
  destruct (State_add_transition_heap h self sym target)
    as [Hsame|(s & _ & _ & _ & Hok)].
  - by rewrite Hadd in Hsame.
  - by rewrite Hok in Hadd.
Qed.

Lemma State_init_Raise n acc h e h' :
  State_init n acc h = (Raise e, h') → h' = h.
Proof.
  unfold State_init, raise, alloc. case_bool_decide; cbn.
  - by intros [= _ <-].
  - intros [=].
Qed.

Lemma FSM_init_Raise x h e h' : FSM_init x h = (Raise e, h') → h' = h.
Proof.
  unfold FSM_init, bind.
  destruct (check_isinstance_State _ _ h) as [[[]|e1] h1] eqn:Hc.
  - apply check_isinstance_State_inv in Hc as ->.
    destruct (get_State x h) as [[s|e2] h1] eqn:Hg.
    + by unfold alloc.
    + intros [= _ <-]. by rewrite <- (get_State_heap h x), Hg.
  - intros [= _ <-]. by rewrite <- (check_isinstance_State_heap x (TypeError InitialStateNotAState) h), Hc.
Qed.

Lemma FSM_add_state_Raise self state h e h' :
  FSM_add_state self state h = (Raise e, h') → h' = h.
Proof.
  unfold FSM_add_state, bind.
  destruct (check_isinstance_State _ _ h) as [[[]|e1] h1] eqn:Hc.
  - apply check_isinstance_State_inv in Hc as ->.
    destruct (get_State state h) as [[s|e2] h1] eqn:Hg.
    + apply get_State_inv in Hg as [_ ->].
      destruct (get_FSM self h) as [[m|e3] h1] eqn:Hm.
      * apply get_FSM_inv in Hm as [_ ->].
        case_bool_decide; [by intros [= _ <-]|by unfold store].
      * intros [= _ <-]. by rewrite <- (get_FSM_heap h self), Hm.
    + intros [= _ <-]. by rewrite <- (get_State_heap h state), Hg.
  - intros [= _ <-]. by rewrite <- (check_isinstance_State_heap state (TypeError StateNotAState) h), Hc.
Qed.

Lemma FSM_add_transition_Raise self from_name sym to_name h e h' :
  FSM_add_transition self from_name sym to_name h = (Raise e, h') → h' = h.
Proof.
  unfold FSM_add_transition, bind, raise.
  destruct (get_FSM self h) as [[m|e'] h1] eqn:Hm.
  - apply get_FSM_inv in Hm as [_ ->].
    destruct (states m !! from_name); [|by intros [= _ <-]].
    destruct (states m !! to_name); [|by intros [= _ <-]].
    apply State_add_transition_Raise.
  - intros [= _ <-]. by rewrite <- (get_FSM_heap h self), Hm.
Qed.

(** X1. The operations that build a machine are all-or-nothing: when
    [State(...)], [State.add_transition], [FSM(...)], [FSM.add_state] or
    [FSM.add_transition] raises, no object has been created or changed. *)
Theorem construction_rejections_change_nothing :
  (∀ n acc h e h', State_init n acc h = (Raise e, h') → h' = h) ∧
  (∀ self sym target h e h',
     State_add_transition self sym target h = (Raise e, h') → h' = h) ∧
  (∀ x h e h', FSM_init x h = (Raise e, h') → h' = h) ∧
  (∀ self state h e h', FSM_add_state self state h = (Raise e, h') → h' = h) ∧
  (∀ self from_name sym to_name h e h',
     FSM_add_transition self from_name sym to_name h = (Raise e, h') → h' = h).
Proof.
  repeat split.
  - apply State_init_Raise.
  - intros *. apply State_add_transition_Raise.
  - apply FSM_init_Raise.
  - apply FSM_add_state_Raise.
  - intros *. apply FSM_add_transition_Raise.
Qed.

(** ** [State.add_transition]: what it leaves alone *)

Lemma State_add_transition_inv h self sym target h' :
  State_add_transition self sym target h = (Ok tt, h') →
  ∃ s, h !! self = Some (ObjState s) ∧
       transitions s !! sym = None ∧
       isinstance_State h target = true ∧
       h' = <[self := ObjState (mkState (name s) (is_accepting s)
                                 (<[sym := target]> (transitions s)))]> h.
Proof.
  intros Hadd.
  destruct (State_add_transition_heap h self sym target)
    as [Hsame|(s & Hs & Hfree & Ht & Hok)].
  - unfold State_add_transition, bind in Hadd, Hsame.
    destruct (get_State self h) as [[s|e] h1] eqn:Hg; [|done].
    apply get_State_inv in Hg as [Hs ->].
    case_bool_decide as Hdup; [done|].
    unfold check_isinstance_State in *.
    destruct (isinstance_State h target) eqn:Ht; [|done].
    exists s. repeat split; try done.
    + by apply eq_None_not_Some.
    + by injection Hadd as <-.
  - rewrite Hok in Hadd. injection Hadd as <-. eauto.
Qed.

(** X2. A successful [add_transition] on a state changes nothing but the
    entry of the symbol added: the state keeps its name and accepting
    flag, [get_next_state] on every other symbol answers as before, and
    every other object is as it was. *)
Theorem add_transition_frame h self sym target h' :
  State_add_transition self sym target h = (Ok tt, h') →
  (∃ s s', h !! self = Some (ObjState s) ∧ h' !! self = Some (ObjState s') ∧
           name s' = name s ∧ is_accepting s' = is_accepting s) ∧
  (∀ sym', sym' ≠ sym →
     (State_get_next_state self (PyInt sym') h').1 =
     (State_get_next_state self (PyInt sym') h).1) ∧
  (∀ x, x ≠ self → h' !! x = h !! x).
Proof.
  intros (s & Hs & Hfree & Ht & ->)%State_add_transition_inv.
  split; [|split].
  - eexists s, _. split; [done|]. split; [apply lookup_insert_eq|done].
  - intros sym' Hne.
    erewrite !State_get_next_state_int by (apply lookup_insert_eq || done).
    cbn. by rewrite lookup_insert_ne.
  - intros x Hx. by rewrite lookup_insert_ne.
Qed.

Lemma add_transition_frame_witness :
  (∃ s s', heap_S1_S2 !! 1%positive = Some (ObjState s) ∧
           (State_add_transition 1%positive 7%Z 2%positive heap_S1_S2).2
             !! 1%positive = Some (ObjState s') ∧
           name s' = name s ∧ is_accepting s' = is_accepting s) ∧
  (∀ sym', sym' ≠ 7%Z →
     (State_get_next_state 1%positive (PyInt sym')
        (State_add_transition 1%positive 7%Z 2%positive heap_S1_S2).2).1 =
     (State_get_next_state 1%positive (PyInt sym') heap_S1_S2).1) ∧
  (∀ x, x ≠ 1%positive →
     (State_add_transition 1%positive 7%Z 2%positive heap_S1_S2).2 !! x =
     heap_S1_S2 !! x).
Proof.
  apply (add_transition_frame heap_S1_S2 1%positive 7%Z 2%positive).
  vm_compute. reflexivity.
Defined.

(** ** Adding many transitions *)

Lemma add_transitions_cons self p pairs h :
  add_transitions self (p :: pairs) h =
    (State_add_transition self p.1 p.2 ;;; add_transitions self pairs) h.
Proof. done. Qed.

(** X3. Adding, one after the other, transitions on pairwise distinct
    symbols that the state does not have yet, each to a [State], always
    succeeds; afterwards [get_next_state] returns for each added symbol
    the target it was added with, and answers as before on every symbol
    that was not added. *)
Theorem add_transitions_lookup h self s pairs :
  h !! self = Some (ObjState s) →
  NoDup pairs.*1 →
  (∀ p, p ∈ pairs → transitions s !! p.1 = None ∧ isinstance_State h p.2 = true) →
  ∃ h', add_transitions self pairs h = (Ok tt, h') ∧
        (∀ p, p ∈ pairs →
           State_get_next_state self (PyInt p.1) h' = (Ok (Some p.2), h')) ∧
        (∀ sym, sym ∉ pairs.*1 →
           State_get_next_state self (PyInt sym) h' =
             (Ok (transitions s !! sym), h')).
Proof.
  revert h s. induction pairs as [|[sym t] pairs IH]; intros h s Hs Hnd Hall.
  - exists h. split; [done|]. split.
    + intros p Hp. by apply elem_of_nil in Hp.
    + intros sym _. by apply State_get_next_state_int.
  - cbn in Hnd. apply NoDup_cons in Hnd as [Hsym Hnd].
    destruct (Hall (sym, t)) as [Hfree Ht]; [left|]. cbn in Hfree, Ht.
    set (s1 := mkState (name s) (is_accepting s) (<[sym := t]> (transitions s))).
    destruct (IH (<[self := ObjState s1]> h) s1) as (h' & Hrun & Hadded & Hother).
    { apply lookup_insert_eq. }
    { done. }
    { intros p Hp. destruct (Hall p) as [Hp1 Hp2]; [by right|]. split.
      - unfold s1. cbn [transitions]. rewrite lookup_insert_ne; [done|].
        intros Heq. apply Hsym. rewrite Heq. by apply list_elem_of_fmap_2.
      - by apply isinstance_State_insert. }
    exists h'. split; [|split].
    + rewrite add_transitions_cons.
      by rewrite (bind_Ok _ _ _ _ _ (State_add_transition_Ok _ _ _ _ _ Hs Hfree Ht)).
    + intros p [->|Hp]%elem_of_cons; [|by apply Hadded].
      cbn [fst snd]. rewrite (Hother sym Hsym).
      unfold s1. cbn. by rewrite lookup_insert_eq.
    + intros sym' Hsym'. rewrite fmap_cons, not_elem_of_cons in Hsym'.
      destruct Hsym' as [Hne Hnotin]. rewrite (Hother sym' Hnotin).
      unfold s1. cbn. by rewrite lookup_insert_ne.
Qed.

(** [test_transition_with_edge_values]: a negative symbol, zero, and 2^31-1. *)
Lemma add_transitions_lookup_witness :
  ∃ h', add_transitions 2%positive
          [(-1, 1%positive); (0, 1%positive); (2 ^ 31 - 1, 2%positive)]%Z
          heap_S1_S2 = (Ok tt, h') ∧
        (∀ p, p ∈ [(-1, 1%positive); (0, 1%positive); (2 ^ 31 - 1, 2%positive)]%Z →
           State_get_next_state 2%positive (PyInt p.1) h' = (Ok (Some p.2), h')) ∧
        (∀ sym, sym ∉ [(-1, 1%positive); (0, 1%positive);
                       (2 ^ 31 - 1, 2%positive)]%Z.*1 →
           State_get_next_state 2%positive (PyInt sym) h' =
             (Ok (transitions (mkState "S2" false ∅) !! sym), h')).
Proof.
  apply (add_transitions_lookup heap_S1_S2 2%positive (mkState "S2" false ∅)).
  - reflexivity.
  - cbn. repeat (apply NoDup_cons; split;
                 [rewrite ?elem_of_cons, elem_of_nil; lia|]).
    apply NoDup_nil. exact I.
  - intros p Hp. rewrite !elem_of_cons, elem_of_nil in Hp.
    destruct Hp as [-> | [-> | [-> | []]]]; split; reflexivity.
Defined.

(** ** Objects only grow *)

Lemma obj_extends_refl o : obj_extends o o.
Proof. destruct o; cbn; [repeat split|]; reflexivity. Qed.

Lemma obj_extends_trans o1 o2 o3 :
  obj_extends o1 o2 → obj_extends o2 o3 → obj_extends o1 o3.
Proof.
  destruct o1, o2, o3; cbn; try done.
  - intros (-> & -> & H12) (-> & -> & H23). repeat split. by etrans.
  - intros H12 H23. by etrans.
Qed.

Lemma heap_extends_refl h : heap_extends h h.
Proof. intros x o Hx. exists o. split; [done|apply obj_extends_refl]. Qed.

Lemma heap_extends_trans h1 h2 h3 :
  heap_extends h1 h2 → heap_extends h2 h3 → heap_extends h1 h3.
Proof.
  intros H12 H23 x o1 Hx.
  destruct (H12 x o1 Hx) as (o2 & Hx2 & He12).
  destruct (H23 x o2 Hx2) as (o3 & Hx3 & He23).
  exists o3. split; [done|]. by eapply obj_extends_trans.
Qed.

Lemma heap_extends_fresh h x o : h !! x = None → heap_extends h (<[x := o]> h).
Proof.
  intros Hx y o' Hy. exists o'. split; [|apply obj_extends_refl].
  rewrite lookup_insert_ne; [done|]. intros ->. congruence.
Qed.

Lemma heap_extends_update h x o o' :
  h !! x = Some o → obj_extends o o' → heap_extends h (<[x := o']> h).
Proof.
  intros Hx Hext y oy Hy. destruct (decide (y = x)) as [->|Hne].
  - exists o'. rewrite lookup_insert_eq. split; [done|]. congruence.
  - exists oy. rewrite lookup_insert_ne by done.
    split; [done|apply obj_extends_refl].
Qed.

Lemma bind_extends {A B} (m : M A) (k : A → M B) h :
  heap_extends h (m h).2 →
  (∀ a h1, m h = (Ok a, h1) → heap_extends h1 (k a h1).2) →
  heap_extends h (bind m k h).2.
Proof.
  intros Hm Hk. apply (bind_heap (heap_extends h)); [done|].
  intros a h1 Heq. eapply heap_extends_trans; [|by apply Hk].
  by rewrite Heq in Hm.
Qed.

Lemma for_each_extends {A} (body : A → M unit) l h :
  (∀ a h1, heap_extends h1 (body a h1).2) →
  heap_extends h (for_each body l h).2.
Proof.
  intros Hbody. revert h. induction l as [|a l IH]; intros h.
  - apply heap_extends_refl.
  - cbn [for_each]. apply bind_extends; [apply Hbody|]. intros _ h1 _. apply IH.
Qed.

Lemma State_init_extends n acc h : heap_extends h (State_init n acc h).2.
Proof.
  unfold State_init. case_bool_decide; [apply heap_extends_refl|].
  destruct (alloc_spec (ObjState (mkState n acc ∅)) h) as (x & Hx & ->).
  by apply heap_extends_fresh.
Qed.

Lemma State_add_transition_extends self sym target h :
  heap_extends h (State_add_transition self sym target h).2.
Proof.
  destruct (State_add_transition_heap h self sym target)
    as [->|(s & Hs & Hfree & _ & ->)]; [apply heap_extends_refl|].
  eapply heap_extends_update; [done|]. cbn. repeat split.
  by apply insert_subseteq.
Qed.

Lemma FSM_init_extends x h : heap_extends h (FSM_init x h).2.
Proof.
  unfold FSM_init.
  apply bind_extends;
    [rewrite check_isinstance_State_heap; apply heap_extends_refl|].
  intros _ h1 _.
  apply bind_extends; [rewrite get_State_heap; apply heap_extends_refl|].
  intros s h2 _.
  destruct (alloc_spec (ObjFSM (mkFSM x {[name s := x]})) h2) as (y & Hy & ->).
  by apply heap_extends_fresh.
Qed.

Lemma FSM_add_state_extends self state h :
  heap_extends h (FSM_add_state self state h).2.
Proof.
  unfold FSM_add_state.
  apply bind_extends;
    [rewrite check_isinstance_State_heap; apply heap_extends_refl|].
  intros _ h1 _.
  apply bind_extends; [rewrite get_State_heap; apply heap_extends_refl|].
  intros s h2 _.
  apply bind_extends; [rewrite get_FSM_heap; apply heap_extends_refl|].
  intros m h3 [Hm ->]%get_FSM_inv.
  case_bool_decide as Hdup; [apply heap_extends_refl|].
  eapply heap_extends_update; [done|]. cbn.
  apply insert_subseteq. by apply eq_None_not_Some.
Qed.

Lemma FSM_add_transition_extends self from_name sym to_name h :
  heap_extends h (FSM_add_transition self from_name sym to_name h).2.
Proof.
  unfold FSM_add_transition.
  apply bind_extends; [rewrite get_FSM_heap; apply heap_extends_refl|].
  intros m h1 _.
  destruct (states m !! from_name); [|apply heap_extends_refl].
  destruct (states m !! to_name); [|apply heap_extends_refl].
  apply State_add_transition_extends.
Qed.

Lemma process_symbol_extends self v h :
  heap_extends h (process_symbol self v h).2.
Proof.
  unfold process_symbol.
  apply bind_extends; [rewrite get_FSM_heap; apply heap_extends_refl|].
  intros m h1 [Hm ->]%get_FSM_inv.
  apply bind_extends;
    [rewrite State_get_next_state_heap; apply heap_extends_refl|].
  intros [t|] h1 Hnext.
  - assert (h1 = h) as ->.
    { pose proof (State_get_next_state_heap (current_state m) v h) as Hh.
      by rewrite Hnext in Hh. }
    eapply heap_extends_update; [done|]. cbn. reflexivity.
  - apply bind_extends; [rewrite get_State_heap; apply heap_extends_refl|].
    intros s h2 _. apply heap_extends_refl.
Qed.

Lemma FSM_process_input_extends self input h :
  heap_extends h (FSM_process_input self input h).2.
Proof.
  unfold FSM_process_input.
  destruct (negb (has_iter input)); [apply heap_extends_refl|].
  destruct (negb (truthy input)); [apply heap_extends_refl|].
  apply bind_extends; [apply for_each_extends, process_symbol_extends|].
  intros _ h1 _.
  apply bind_extends; [rewrite get_FSM_heap; apply heap_extends_refl|].
  intros m h2 _. apply heap_extends_refl.
Qed.

Lemma check_binary_heap v h : (check_binary v h).2 = h.
Proof.
  unfold check_binary. destruct (negb (isinstance_int v)); [done|].
  by destruct (negb (in_0_1 v)).
Qed.

Lemma int_of_str_heap s h : (int_of_str s h).2 = h.
Proof.
  unfold int_of_str. cbv zeta.
  match goal with
  | |- context [match ?p with Some _ => _ | None => _ end] => by destruct p
  end.
Qed.

Lemma process_three_mod_input_extends self input h :
  heap_extends h (process_three_mod_input self input h).2.
Proof.
  unfold process_three_mod_input.
  destruct input as [| | | |l|]; try apply heap_extends_refl.
  apply bind_extends.
  { apply for_each_extends. intros v h1. rewrite check_binary_heap.
    apply heap_extends_refl. }
  intros _ h1 _. apply bind_extends; [apply FSM_process_input_extends|].
  intros x h2 _.
  apply bind_extends; [rewrite get_State_heap; apply heap_extends_refl|].
  intros s h3 _. rewrite int_of_str_heap. apply heap_extends_refl.
Qed.

Lemma ModThreeFSM_init_extends h : heap_extends h (ModThreeFSM_init h).2.
Proof.
  unfold ModThreeFSM_init.
  repeat (apply bind_extends;
          [first [apply State_init_extends | apply FSM_init_extends
                 | apply FSM_add_state_extends
                 | apply State_add_transition_extends]
          |intros ? ? _]).
  apply heap_extends_refl.
Qed.

(** X4. No method of the module ever destroys or rewrites anything:
    whatever it is called with and whether it returns or raises, every
    object that existed before the call still exists after it, a state
    with the same name, the same accepting flag and at least the
    transitions it had (none removed, none redirected), a machine with at
    least the registry entries it had. *)
Theorem objects_only_grow h :
  (∀ n acc, heap_extends h (State_init n acc h).2) ∧
  (∀ self sym target, heap_extends h (State_add_transition self sym target h).2) ∧
  (∀ x, heap_extends h (FSM_init x h).2) ∧
  (∀ self state, heap_extends h (FSM_add_state self state h).2) ∧
  (∀ self from_name sym to_name,
     heap_extends h (FSM_add_transition self from_name sym to_name h).2) ∧
  (∀ self input, heap_extends h (FSM_process_input self input h).2) ∧
  (∀ self, heap_extends h (FSM_is_accepting self h).2) ∧
  heap_extends h (ModThreeFSM_init h).2 ∧
  (∀ self input, heap_extends h (process_three_mod_input self input h).2).
Proof.
  repeat split.
  - intros. apply State_init_extends.
  - intros. apply State_add_transition_extends.
  - intros. apply FSM_init_extends.
  - intros. apply FSM_add_state_extends.
  - intros. apply FSM_add_transition_extends.
  - intros. apply FSM_process_input_extends.
  - intros. rewrite FSM_is_accepting_heap. apply heap_extends_refl.
  - apply ModThreeFSM_init_extends.
  - intros. apply process_three_mod_input_extends.
Qed.

(** ** The registry is keyed by the states' own names *)

Lemma registry_names_consistentb_true h self :
  registry_names_consistentb h self = true ↔ registry_names_consistent h self.
Proof.
  unfold registry_names_consistentb, registry_names_consistent.
  destruct (h !! self) as [[s|m]|] eqn:Hself.
  - split; [done|]. by intros (? & [=] & _).
  - rewrite bool_decide_eq_true. split.
    + intros Hall. exists m. split; [done|]. intros n x Hx.
      specialize (Hall n x Hx). unfold named_stateb in Hall.
      destruct (h !! x) as [[s|?]|]; try done.
      apply bool_decide_eq_true in Hall. eauto.
    + intros (m' & [= <-] & Hall) n x Hx.
      destruct (Hall n x Hx) as (s & Hs & Hn). unfold named_stateb.
      rewrite Hs. by apply bool_decide_eq_true.
  - split; [done|]. by intros (? & [=] & _).
Qed.

(** The invariant survives any later version of the heap in which the
    machine has the same registry. *)
Lemma registry_names_consistent_extends h h' self m m' :
  registry_names_consistent h self →
  heap_extends h h' →
  h !! self = Some (ObjFSM m) → h' !! self = Some (ObjFSM m') →
  states m' = states m →
  registry_names_consistent h' self.
Proof.
  intros (m0 & Hm0 & Hall) Hext Hm Hm' Hreg.
  assert (m0 = m) as -> by congruence.
  exists m'. split; [done|]. rewrite Hreg. intros n x Hx.
  destruct (Hall n x Hx) as (s & Hs & Hn).
  destruct (Hext x _ Hs) as ([s'|?] & Hs' & Hobj); [|done].
  destruct Hobj as (Hname & _ & _). exists s'. split; [done|]. congruence.
Qed.

Lemma registry_names_consistent_init h x self h' :
  FSM_init x h = (Ok self, h') → registry_names_consistent h' self.
Proof.
  unfold FSM_init, bind.
  destruct (check_isinstance_State _ _ h) as [[[]|e] h1] eqn:Hc; [|done].
  apply check_isinstance_State_inv in Hc as ->.
  destruct (get_State x h) as [[s|e] h1] eqn:Hg; [|done].
  apply get_State_inv in Hg as [Hs ->].
  unfold alloc. intros [= <- <-].
  assert (h !! fresh (dom h) = None) as Hfresh
    by apply not_elem_of_dom, is_fresh.
  eexists. split; [apply lookup_insert_eq|]. cbn.
  intros n y [<- <-]%lookup_singleton_Some.
  exists s. split; [|done]. rewrite lookup_insert_ne; [done|].
  intros Heq. congruence.
Qed.

Lemma registry_names_consistent_add_state h self state :
  registry_names_consistent h self →
  registry_names_consistent (FSM_add_state self state h).2 self.
Proof.
  intros Hinv. unfold FSM_add_state.
  apply bind_heap; [by rewrite check_isinstance_State_heap|].
  intros [] h1 ->%check_isinstance_State_inv.
  apply bind_heap; [by rewrite get_State_heap|].
  intros s h1 [Hs ->]%get_State_inv.
  apply bind_heap; [by rewrite get_FSM_heap|].
  intros m h1 [Hm ->]%get_FSM_inv.
  case_bool_decide as Hdup; [done|]. cbn.
  destruct Hinv as (m' & Hm' & Hall). assert (m' = m) as -> by congruence.
  eexists. split; [apply lookup_insert_eq|]. cbn.
  assert (state ≠ self) as Hne by (intros ->; congruence).
  intros n x [[<- <-]|[Hn Hx]]%lookup_insert_Some.
  - exists s. split; [|done]. by rewrite lookup_insert_ne.
  - destruct (Hall n x Hx) as (s' & Hs' & Hname). exists s'. split; [|done].
    rewrite lookup_insert_ne; [done|]. intros <-. congruence.
Qed.

Lemma registry_names_consistent_State_add_transition h self x sym t :
  registry_names_consistent h self →
  registry_names_consistent (State_add_transition x sym t h).2 self.
Proof.
  intros Hinv. pose proof Hinv as (m & Hm & _).
  destruct (State_add_transition_extends x sym t h self _ Hm)
    as ([?|m'] & Hm' & Hobj); [done|].
  eapply registry_names_consistent_extends;
    [done|apply State_add_transition_extends|done|done|].
  destruct (State_add_transition_heap h x sym t)
    as [Hsame|(s & Hs & _ & _ & Hok)].
  - rewrite Hsame in Hm'. congruence.
  - rewrite Hok in Hm'. cbn in Hm'. rewrite lookup_insert_ne in Hm'; [congruence|].
    intros ->. congruence.
Qed.

Lemma registry_names_consistent_add_transition h self from_name sym to_name :
  registry_names_consistent h self →
  registry_names_consistent (FSM_add_transition self from_name sym to_name h).2 self.
Proof.
  intros Hinv. unfold FSM_add_transition.
  apply bind_heap; [by rewrite get_FSM_heap|].
  intros m h1 [Hm ->]%get_FSM_inv.
  destruct (states m !! from_name); [|done].
  destruct (states m !! to_name); [|done].
  by apply registry_names_consistent_State_add_transition.
Qed.

(** What [process_input] does to the heap: it rewrites the
    [current_state] of the machine, and nothing else. *)
Lemma process_symbol_heap self v h m :
  h !! self = Some (ObjFSM m) →
  ∃ cur, (process_symbol self v h).2 = <[self := ObjFSM (mkFSM cur (states m))]> h.
Proof.
  intros Hm. unfold process_symbol.
  rewrite (bind_Ok _ _ _ _ _ (get_FSM_Ok _ _ _ Hm)).
  unfold bind.
  destruct (State_get_next_state (current_state m) v h) as [[[t|]|e] h1] eqn:Hnext;
    pose proof (State_get_next_state_heap (current_state m) v h) as Hh;
    rewrite Hnext in Hh; cbn in Hh; subst h1.
  - by exists t.
  - exists (current_state m). rewrite insert_FSM_id by done.
    destruct (get_State (current_state m) h) as [[s|e] h1] eqn:Hg.
    + by apply get_State_inv in Hg as [_ ->].
    + cbn. by rewrite <- (get_State_heap h (current_state m)), Hg.
  - exists (current_state m). by rewrite insert_FSM_id.
Qed.

Lemma for_each_process_symbol_heap self l h m :
  h !! self = Some (ObjFSM m) →
  ∃ cur, (for_each (process_symbol self) l h).2 =
           <[self := ObjFSM (mkFSM cur (states m))]> h.
Proof.
  revert h m. induction l as [|v l IH]; intros h m Hm.
  - exists (current_state m). cbn. by rewrite insert_FSM_id.
  - cbn [for_each]. unfold bind.
    destruct (process_symbol_heap self v h m Hm) as (c1 & Hstep).
    destruct (process_symbol self v h) as [[[]|e] h1]; cbn in Hstep; subst h1.
    + destruct (IH (<[self := ObjFSM (mkFSM c1 (states m))]> h)
                  (mkFSM c1 (states m)) (lookup_insert_eq _ _ _))
        as (c2 & Hrest).
      exists c2. rewrite Hrest. cbn. by rewrite insert_insert_eq.
    + by exists c1.
Qed.

Lemma FSM_process_input_heap self input h m :
  h !! self = Some (ObjFSM m) →
  ∃ cur, (FSM_process_input self input h).2 =
           <[self := ObjFSM (mkFSM cur (states m))]> h ∧
         ∀ x h', FSM_process_input self input h = (Ok x, h') → x = cur.
Proof.
  intros Hm. unfold FSM_process_input.
  destruct (negb (has_iter input));
    [exists (current_state m); split; [by rewrite insert_FSM_id|done]|].
  destruct (negb (truthy input));
    [exists (current_state m); split; [by rewrite insert_FSM_id|done]|].
  destruct (for_each_process_symbol_heap self (iter_elems input) h m Hm)
    as (cur & Hloop).
  exists cur. unfold bind.
  destruct (for_each _ _ h) as [[[]|e] h1]; cbn in Hloop; subst h1; [|done].
  rewrite (get_FSM_Ok _ _ _ (lookup_insert_eq _ _ _)). cbn.
  split; [done|]. by intros x h' [= <- _].
Qed.

(** X5. [process_input] writes the machine's [current_state] and nothing
    else: for every input, whether it returns or raises, the heap after
    the call is the heap before it with only that field replaced (the
    registry and every state are untouched), and a returned state is the
    new [current_state]. *)
Theorem process_input_writes_current_state_only h self m input :
  h !! self = Some (ObjFSM m) →
  ∃ cur, (FSM_process_input self input h).2 =
           <[self := ObjFSM (mkFSM cur (states m))]> h ∧
         ∀ x h', FSM_process_input self input h = (Ok x, h') → x = cur.
Proof.
  intros Hm.
  destruct (FSM_process_input_heap self input h m Hm) as (cur & Hheap & Hret).
  exists cur. split; [exact Hheap|exact Hret].
Qed.

Lemma process_input_writes_current_state_only_witness :
  ∃ cur, (FSM_process_input 4%positive (ints [0; 1]%Z) (test_fsm ∅).2).2 =
           <[4%positive := ObjFSM (mkFSM cur
               (states (mkFSM 1%positive
                  (<["S2" := 3%positive]> (<["S1" := 2%positive]>
                     {["S0" := 1%positive]})))))]> (test_fsm ∅).2 ∧
         ∀ x h', FSM_process_input 4%positive (ints [0; 1]%Z) (test_fsm ∅).2
                 = (Ok x, h') → x = cur.
Proof.
  refine (process_input_writes_current_state_only (test_fsm ∅).2 4%positive
            (mkFSM 1%positive
               (<["S2" := 3%positive]> (<["S1" := 2%positive]>
                  {["S0" := 1%positive]})))
            (ints [0; 1]%Z) _).
  vm_compute. reflexivity.
Defined.

Lemma registry_names_consistent_process_input h self input :
  registry_names_consistent h self →
  registry_names_consistent (FSM_process_input self input h).2 self.
Proof.
  intros Hinv. pose proof Hinv as (m & Hm & _).
  destruct (FSM_process_input_heap self input h m Hm) as (cur & Hh & _).
  eapply registry_names_consistent_extends;
    [done|apply FSM_process_input_extends|done| |].
  - rewrite Hh. apply lookup_insert_eq.
  - done.
Qed.

(** X6. The registry of a machine is keyed by the names of its states:
    after [FSM(initial_state)] every entry leads to a [State] whose name
    is the entry's key, and [add_state], [FSM.add_transition],
    [State.add_transition] (on any state), [process_input] and
    [is_accepting] keep it so, whether they return or raise. *)
Theorem registry_keyed_by_state_names :
  (∀ h x self h', FSM_init x h = (Ok self, h') →
                  registry_names_consistent h' self) ∧
  (∀ h self,
     registry_names_consistent h self →
     (∀ state, registry_names_consistent (FSM_add_state self state h).2 self) ∧
     (∀ from_name sym to_name,
        registry_names_consistent
          (FSM_add_transition self from_name sym to_name h).2 self) ∧
     (∀ x sym t,
        registry_names_consistent (State_add_transition x sym t h).2 self) ∧
     (∀ input, registry_names_consistent (FSM_process_input self input h).2 self) ∧
     registry_names_consistent (FSM_is_accepting self h).2 self).
Proof.
  split; [apply registry_names_consistent_init|].
  intros h self Hinv. repeat split.
  - intros. by apply registry_names_consistent_add_state.
  - intros. by apply registry_names_consistent_add_transition.
  - intros. by apply registry_names_consistent_State_add_transition.
  - intros. by apply registry_names_consistent_process_input.
  - by rewrite FSM_is_accepting_heap.
Qed.

Lemma registry_keyed_by_state_names_witness :
  registry_names_consistent
    (FSM_add_transition 4%positive "S1" 1%Z "S2" (test_fsm ∅).2).2 4%positive ∧
  registry_names_consistent
    (FSM_process_input 4%positive (ints [0; 1]%Z) (test_fsm ∅).2).2 4%positive.
Proof.
  destruct registry_keyed_by_state_names as [_ Hkeep].
  assert (registry_names_consistent (test_fsm ∅).2 4%positive) as Hinv.
  { apply registry_names_consistentb_true. vm_compute. reflexivity. }
  destruct (Hkeep (test_fsm ∅).2 4%positive Hinv) as (_ & Hadd & _ & Hrun & _).
  split; [apply Hadd|apply Hrun].
Defined.

(** ** Registration *)

(** X7. Registering never moves a machine: [add_state] keeps the
    [current_state] of the machine, and [FSM.add_transition],
    [State.add_transition] (on any state) and [is_accepting] leave the
    machine object exactly as it was, whether they return or raise. *)
Theorem registration_keeps_current_state h self m :
  h !! self = Some (ObjFSM m) →
  (∀ state, ∃ m', (FSM_add_state self state h).2 !! self = Some (ObjFSM m') ∧
                  current_state m' = current_state m) ∧
  (∀ from_name sym to_name,
     (FSM_add_transition self from_name sym to_name h).2 !! self = Some (ObjFSM m)) ∧
  (∀ x sym t, (State_add_transition x sym t h).2 !! self = Some (ObjFSM m)) ∧
  (FSM_is_accepting self h).2 !! self = Some (ObjFSM m).
Proof.
  intros Hm.
  assert (∀ x sym t, (State_add_transition x sym t h).2 !! self = Some (ObjFSM m))
    as Hstate.
  { intros x sym t.
    destruct (State_add_transition_heap h x sym t)
      as [->|(s & Hs & _ & _ & ->)]; [done|].
    cbn. rewrite lookup_insert_ne; [done|]. intros ->. congruence. }
  split; [|split; [|split]].
  - intros state. unfold FSM_add_state, bind.
    destruct (check_isinstance_State _ _ h) as [[[]|e1] h1] eqn:Hc.
    + apply check_isinstance_State_inv in Hc as ->.
      destruct (get_State state h) as [[s|e2] h1] eqn:Hg.
      * apply get_State_inv in Hg as [_ ->].
        rewrite (get_FSM_Ok _ _ _ Hm).
        case_bool_decide; [by exists m|].
        eexists. split; [apply lookup_insert_eq|done].
      * exists m. split; [|done]. cbn.
        pose proof (get_State_heap h state) as Hh. rewrite Hg in Hh.
        cbn in Hh. by subst.
    + exists m. split; [|done]. cbn.
      pose proof (check_isinstance_State_heap state (TypeError StateNotAState) h)
        as Hh.
      rewrite Hc in Hh. cbn in Hh. by subst.
  - intros from_name sym to_name. unfold FSM_add_transition.
    rewrite (bind_Ok _ _ _ _ _ (get_FSM_Ok _ _ _ Hm)).
    destruct (states m !! from_name); [|done].
    destruct (states m !! to_name); [|done].
    apply Hstate.
  - done.
  - by rewrite FSM_is_accepting_heap.
Qed.

Lemma registration_keeps_current_state_witness :
  (∀ state, ∃ m', (FSM_add_state 4%positive state (test_fsm ∅).2).2 !! 4%positive
                  = Some (ObjFSM m') ∧
                  current_state m' = 1%positive) ∧
  (∀ from_name sym to_name,
     (FSM_add_transition 4%positive from_name sym to_name (test_fsm ∅).2).2
       !! 4%positive =
     Some (ObjFSM (mkFSM 1%positive
       (<["S2" := 3%positive]> (<["S1" := 2%positive]> {["S0" := 1%positive]}))))) ∧
  (∀ x sym t, (State_add_transition x sym t (test_fsm ∅).2).2 !! 4%positive =
     Some (ObjFSM (mkFSM 1%positive
       (<["S2" := 3%positive]> (<["S1" := 2%positive]> {["S0" := 1%positive]}))))) ∧
  (FSM_is_accepting 4%positive (test_fsm ∅).2).2 !! 4%positive =
     Some (ObjFSM (mkFSM 1%positive
       (<["S2" := 3%positive]> (<["S1" := 2%positive]> {["S0" := 1%positive]})))).
Proof.
  refine (registration_keeps_current_state (test_fsm ∅).2 4%positive
            (mkFSM 1%positive
               (<["S2" := 3%positive]> (<["S1" := 2%positive]>
                  {["S0" := 1%positive]}))) _).
  vm_compute. reflexivity.
Defined.

(** X8. [add_state] registers a [State] whose name is free under that
    name, leaving the other entries of the registry, the [current_state]
    and every other object as they were; from then on the name is taken:
    adding any state of that name, the same object or another, raises the
    duplicate-name [ValueError] and changes nothing. *)
Theorem add_state_registers_once h self m state s :
  h !! self = Some (ObjFSM m) →
  h !! state = Some (ObjState s) →
  states m !! name s = None →
  ∃ h' m',
    FSM_add_state self state h = (Ok tt, h') ∧
    h' !! self = Some (ObjFSM m') ∧
    current_state m' = current_state m ∧
    states m' !! name s = Some state ∧
    (∀ n, n ≠ name s → states m' !! n = states m !! n) ∧
    (∀ x, x ≠ self → h' !! x = h !! x) ∧
    (∀ state' s', h' !! state' = Some (ObjState s') → name s' = name s →
       FSM_add_state self state' h' =
         (Raise (ValueError (StateNameAlreadyExists (name s))), h')).
Proof.
  intros Hm Hs Hfree.
  eexists _, _. split; [by apply FSM_add_state_Ok|].
  split; [apply lookup_insert_eq|]. cbn.
  split; [done|]. split; [apply lookup_insert_eq|].
  split; [intros n Hn; by rewrite lookup_insert_ne|].
  split; [intros x Hx; by rewrite lookup_insert_ne|].
  intros state' s' Hs' Hname. unfold FSM_add_state.
  unfold bind at 1. unfold check_isinstance_State, isinstance_State.
  rewrite Hs'. rewrite (bind_Ok _ _ _ _ _ (get_State_Ok _ _ _ Hs')).
  rewrite (bind_Ok _ _ _ _ _ (get_FSM_Ok _ _ _ (lookup_insert_eq _ _ _))).
  cbn [states]. rewrite Hname.
  by rewrite bool_decide_eq_true_2 by (rewrite lookup_insert_eq; eauto).
Qed.

Lemma add_state_registers_once_witness :
  ∃ h' m',
    FSM_add_state 3%positive 2%positive (stray_fsm ∅).2 = (Ok tt, h') ∧
    h' !! 3%positive = Some (ObjFSM m') ∧
    current_state m' = current_state (mkFSM 1%positive {["S0" := 1%positive]}) ∧
    states m' !! name (mkState "X" false ∅) = Some 2%positive ∧
    (∀ n, n ≠ name (mkState "X" false ∅) →
       states m' !! n = states (mkFSM 1%positive {["S0" := 1%positive]}) !! n) ∧
    (∀ x, x ≠ 3%positive → h' !! x = (stray_fsm ∅).2 !! x) ∧
    (∀ state' s', h' !! state' = Some (ObjState s') →
       name s' = name (mkState "X" false ∅) →
       FSM_add_state 3%positive state' h' =
         (Raise (ValueError (StateNameAlreadyExists (name (mkState "X" false ∅)))),
          h')).
Proof.
  refine (add_state_registers_once (stray_fsm ∅).2 3%positive
            (mkFSM 1%positive {["S0" := 1%positive]}) 2%positive
            (mkState "X" false ∅) _ _ _);
    vm_compute; reflexivity.
Defined.

(** X9. [FSM(initial_state)] on a [State] creates a machine, a new
    object, whose [current_state] is that state and whose registry holds
    exactly that state, under its name; every object that existed is
    unchanged, and the name of the initial state is taken from the start.
    On anything that is not a [State] it raises the [TypeError] and
    creates nothing. *)
Theorem FSM_init_registers_initial_state h x :
  match h !! x with
  | Some (ObjState s) =>
      ∃ self h',
        FSM_init x h = (Ok self, h') ∧
        h !! self = None ∧
        h' !! self = Some (ObjFSM (mkFSM x {[name s := x]})) ∧
        (∀ y, y ≠ self → h' !! y = h !! y) ∧
        FSM_add_state self x h' =
          (Raise (ValueError (StateNameAlreadyExists (name s))), h')
  | _ => FSM_init x h = (Raise (TypeError InitialStateNotAState), h)
  end.
Proof.
  destruct (h !! x) as [[s|m]|] eqn:Hx.
  - destruct (FSM_init_Ok h x s Hx) as (self & Hfresh & Hinit).
    eexists self, _. split; [done|]. split; [done|].
    split; [apply lookup_insert_eq|].
    split; [intros y Hy; by rewrite lookup_insert_ne|].
    assert (x ≠ self) as Hne by (intros ->; congruence).
    assert (<[self := ObjFSM (mkFSM x {[name s := x]})]> h !! x
            = Some (ObjState s)) as Hx' by (by rewrite lookup_insert_ne).
    unfold FSM_add_state. unfold bind at 1.
    unfold check_isinstance_State, isinstance_State. rewrite Hx'.
    rewrite (bind_Ok _ _ _ _ _ (get_State_Ok _ _ _ Hx')).
    rewrite (bind_Ok _ _ _ _ _ (get_FSM_Ok _ _ _ (lookup_insert_eq _ _ _))).
    cbn [states].
    by rewrite bool_decide_eq_true_2 by (rewrite lookup_singleton_eq; eauto).
  - unfold FSM_init, bind, check_isinstance_State, isinstance_State.
    by rewrite Hx.
  - unfold FSM_init, bind, check_isinstance_State, isinstance_State.
    by rewrite Hx.
Qed.

(** ** [FSM.add_transition] *)



(** ** [process_input]: composition and rejected inputs *)

Lemma FSM_process_input_nonempty self l h :
  l ≠ [] →
  FSM_process_input self (PyList l) h =
    (for_each (process_symbol self) l ;;;
     m <- get_FSM self ;;
     ret (current_state m)) h.
Proof.
  intros Hne. unfold FSM_process_input. cbn [has_iter truthy negb iter_elems].
  by rewrite bool_decide_eq_false_2 by done.
Qed.

Lemma process_symbol_not_FSM self v h :
  (∀ m, h !! self ≠ Some (ObjFSM m)) →
  process_symbol self v h = (Raise AttributeError, h).
Proof.
  intros Hself. unfold process_symbol, bind, get_FSM.
  destruct (h !! self) as [[s|m]|]; [done| |done]. by destruct (Hself m).
Qed.

(** X11. [process_input] keeps no memory between calls but the
    [current_state]: processing the concatenation of two non-empty lists
    is, in result and in effect, processing the first and then the second.
    In particular, if the first part raises, the whole raises the same
    exception from the same heap. *)
Theorem process_input_app self l1 l2 h :
  l1 ≠ [] → l2 ≠ [] →
  FSM_process_input self (PyList (l1 ++ l2)) h =
    (FSM_process_input self (PyList l1) ;;;
     FSM_process_input self (PyList l2)) h.
Proof.
  intros Hne1 Hne2.
  assert (l1 ++ l2 ≠ []) as Hne by (by destruct l1).
  destruct (for_each (process_symbol self) l1 h) as [[[]|e] h1] eqn:H1.
  - assert (for_each (process_symbol self) (l1 ++ l2) h =
            for_each (process_symbol self) l2 h1) as Happ
      by (by rewrite for_each_app, (bind_Ok _ _ _ _ _ H1)).
    destruct (h1 !! self) as [[s|m]|] eqn:Hself.
    + assert (get_FSM self h1 = (Raise AttributeError, h1)) as Hg
        by (unfold get_FSM; by rewrite Hself).
      rewrite (bind_Raise (FSM_process_input self (PyList l1)) _ h AttributeError h1).
      2:{ rewrite FSM_process_input_nonempty by done.
          rewrite (bind_Ok _ _ _ _ _ H1). by apply bind_Raise. }
      rewrite FSM_process_input_nonempty by done. apply bind_Raise.
      rewrite Happ. destruct l2 as [|v l2]; [done|]. cbn [for_each].
      apply bind_Raise, process_symbol_not_FSM. congruence.
    + rewrite (bind_Ok (FSM_process_input self (PyList l1)) _ h (current_state m) h1).
      2:{ rewrite FSM_process_input_nonempty by done.
          rewrite (bind_Ok _ _ _ _ _ H1).
          by rewrite (bind_Ok _ _ _ _ _ (get_FSM_Ok _ _ _ Hself)). }
      rewrite !FSM_process_input_nonempty by done.
      unfold bind at 1 3. by rewrite Happ.
    + assert (get_FSM self h1 = (Raise AttributeError, h1)) as Hg
        by (unfold get_FSM; by rewrite Hself).
      rewrite (bind_Raise (FSM_process_input self (PyList l1)) _ h AttributeError h1).
      2:{ rewrite FSM_process_input_nonempty by done.
          rewrite (bind_Ok _ _ _ _ _ H1). by apply bind_Raise. }
      rewrite FSM_process_input_nonempty by done. apply bind_Raise.
      rewrite Happ. destruct l2 as [|v l2]; [done|]. cbn [for_each].
      apply bind_Raise, process_symbol_not_FSM. congruence.
  - rewrite (bind_Raise (FSM_process_input self (PyList l1)) _ h e h1).
    2:{ rewrite FSM_process_input_nonempty by done. by apply bind_Raise. }
    rewrite FSM_process_input_nonempty by done. apply bind_Raise.
    rewrite for_each_app. by apply bind_Raise.
Qed.

Lemma process_input_app_witness :
  FSM_process_input 4%positive (PyList ([PyInt 1; PyInt 0] ++ [PyInt 1])) (example_fsm ∅).2 =
    (FSM_process_input 4%positive (PyList [PyInt 1; PyInt 0]) ;;;
     FSM_process_input 4%positive (PyList [PyInt 1])) (example_fsm ∅).2.
Proof.
  apply (process_input_app 4%positive [PyInt 1; PyInt 0] [PyInt 1]); discriminate.
Defined.

Lemma State_get_next_state_str h x s key :
  h !! x = Some (ObjState s) →
  State_get_next_state x (PyStr key) h = (Ok None, h).
Proof.
  intros Hx. unfold State_get_next_state.
  by rewrite (bind_Ok _ _ _ _ _ (get_State_Ok _ _ _ Hx)).
Qed.

(** X12. What [process_input] does with an argument that is not a
    non-empty list or tuple of symbols.  A value with no [__iter__]
    ([None], a boolean, an integer) raises the [TypeError]; an empty list,
    tuple or string raises the empty-input [ValueError]; and a non-empty
    string is taken for a sequence of one-character symbols, none of which
    can equal an integer symbol, so that on a machine standing on a state
    the call raises the no-transition [ValueError] for the first character.
    None of these calls changes anything. *)
Theorem process_input_rejected_arguments self h :
  FSM_process_input self PyNone h = (Raise (TypeError SequenceNotIterable), h) ∧
  (∀ b, FSM_process_input self (PyBool b) h =
          (Raise (TypeError SequenceNotIterable), h)) ∧
  (∀ z, FSM_process_input self (PyInt z) h =
          (Raise (TypeError SequenceNotIterable), h)) ∧
  FSM_process_input self (PyList []) h = (Raise (ValueError SequenceEmpty), h) ∧
  FSM_process_input self (PyTuple []) h = (Raise (ValueError SequenceEmpty), h) ∧
  FSM_process_input self (PyStr "") h = (Raise (ValueError SequenceEmpty), h) ∧
  (∀ m s c str,
     h !! self = Some (ObjFSM m) →
     h !! current_state m = Some (ObjState s) →
     FSM_process_input self (PyStr (String c str)) h =
       (Raise (ValueError (NoTransition (PyStr (String c "")) (name s))), h)).
Proof.
  split; [done|]. split; [by intros []|]. split; [done|].
  split; [done|]. split; [done|]. split; [done|].
  intros m s c str Hm Hs. unfold FSM_process_input.
  cbn [has_iter truthy negb iter_elems chars for_each].
  rewrite bool_decide_eq_false_2 by done. cbn [negb].
  apply bind_Raise, bind_Raise. unfold process_symbol.
  rewrite (bind_Ok _ _ _ _ _ (get_FSM_Ok _ _ _ Hm)).
  rewrite (bind_Ok _ _ _ _ _ (State_get_next_state_str _ _ _ _ Hs)).
  by rewrite (bind_Ok _ _ _ _ _ (get_State_Ok _ _ _ Hs)).
Qed.

(** X13. After [process_input] has returned a state, that state is the
    machine's [current_state], and [is_accepting()] answers its accepting
    flag. *)
Theorem is_accepting_after_process_input self input h x h' s :
  FSM_process_input self input h = (Ok x, h') →
  h' !! x = Some (ObjState s) →
  (∃ m, h' !! self = Some (ObjFSM m) ∧ current_state m = x) ∧
  FSM_is_accepting self h' = (Ok (is_accepting s), h').
Proof.
  intros Hrun Hx.
  assert (∃ m, h' !! self = Some (ObjFSM m) ∧ current_state m = x)
    as (m & Hm & Hcur).
  { revert Hrun. unfold FSM_process_input.
    destruct (negb (has_iter input)); [done|].
    destruct (negb (truthy input)); [done|].
    unfold bind. destruct (for_each _ _ h) as [[[]|e] h1]; [|done].
    destruct (get_FSM self h1) as [[m|e] h2] eqn:Hg; [|done].
    apply get_FSM_inv in Hg as [Hm ->]. unfold ret. intros [= <- <-]. eauto. }
  split; [eauto|]. unfold FSM_is_accepting.
  rewrite (bind_Ok _ _ _ _ _ (get_FSM_Ok _ _ _ Hm)). rewrite Hcur.
  by rewrite (bind_Ok _ _ _ _ _ (get_State_Ok _ _ _ Hx)).
Qed.

(** [TestFSM.test_is_accepting]: S0 is not accepting, S1 is. *)
Lemma is_accepting_after_process_input_witness :
  (∃ m, (FSM_process_input 4%positive (ints [0%Z]) (test_fsm ∅).2).2 !! 4%positive
        = Some (ObjFSM m) ∧ current_state m = 2%positive) ∧
  FSM_is_accepting 4%positive
    (FSM_process_input 4%positive (ints [0%Z]) (test_fsm ∅).2).2 =
    (Ok (is_accepting (mkState "S1" true ∅)),
     (FSM_process_input 4%positive (ints [0%Z]) (test_fsm ∅).2).2).
Proof.
  refine (is_accepting_after_process_input 4%positive (ints [0%Z]) (test_fsm ∅).2
            2%positive _ (mkState "S1" true ∅) _ _);
    vm_compute; reflexivity.
Defined.

(** ** class ModThreeFSM: successive calls *)

Lemma int_values_app l1 l2 : int_values (l1 ++ l2) = int_values l1 ++ int_values l2.
Proof. unfold int_values. apply fmap_app. Qed.

Lemma mod3_calls_run h self s0 s1 s2 r inputs :
  mod3_heap h self s0 s1 s2 (state_of s0 s1 s2 (r mod 3)) →
  Forall valid_input inputs →
  ∃ h1, mod3_calls self inputs h = (Ok tt, h1) ∧
        mod3_heap h1 self s0 s1 s2
          (state_of s0 s1 s2 (horner r (int_values (concat inputs)) mod 3)).
Proof.
  intros Hm Hall. revert r h Hm.
  induction Hall as [|l inputs [Hne Hl] _ IH]; intros r h Hm.
  - exists h. split; [done|]. done.
  - destruct (mod3_process_three_mod_input h self s0 s1 s2 r l Hm Hne Hl)
      as (h1 & Hrun & Hm1). cbn zeta in Hrun, Hm1.
    destruct (IH (horner r (int_values l) mod 3)%Z h1 Hm1) as (h2 & Hrest & Hm2).
    exists h2. split.
    + unfold mod3_calls. cbn [for_each].
      rewrite (bind_Ok _ _ h tt h1); [exact Hrest|].
      by rewrite (bind_Ok _ _ _ _ _ Hrun).
    + cbn [concat]. rewrite int_values_app, horner_app.
      by rewrite <- horner_mod_3.
Qed.

(** X14. A [ModThreeFSM] accumulates its inputs: on a fresh machine,
    after any number of valid calls, a further valid call returns the
    remainder modulo 3 of the binary number written by all the inputs so
    far, concatenated.  A valid input is a non-empty list, of any length,
    of integers 0 and 1 or of booleans, a boolean standing for the bit it
    equals. *)
Theorem mod3_calls_accumulate h0 inputs l :
  Forall valid_input inputs →
  valid_input l →
  ∃ self h h1 h2,
    ModThreeFSM_init h0 = (Ok self, h) ∧
    mod3_calls self inputs h = (Ok tt, h1) ∧
    process_three_mod_input self (PyList l) h1 =
      (Ok (binary_to_decimal (int_values (concat inputs ++ l)) mod 3)%Z, h2).
Proof.
  intros Hall [Hne Hl].
  destruct (ModThreeFSM_init_layout h0) as (self & s0 & s1 & s2 & h & Hinit & Hm).
  destruct (mod3_calls_run h self s0 s1 s2 0 inputs Hm Hall) as (h1 & Hcalls & Hm1).
  destruct (mod3_process_three_mod_input h1 self s0 s1 s2 _ l Hm1 Hne Hl)
    as (h2 & Hrun & _). cbn zeta in Hrun.
  exists self, h, h1, h2. split; [done|]. split; [done|].
  rewrite Hrun.
  by rewrite binary_to_decimal_horner, int_values_app, horner_app.
Qed.

Lemma mod3_calls_accumulate_witness :
  ∃ self h h1 h2,
    ModThreeFSM_init ∅ = (Ok self, h) ∧
    mod3_calls self [[PyInt 0; PyInt 1; PyInt 1]; [PyBool true]] h = (Ok tt, h1) ∧
    process_three_mod_input self (PyList [PyInt 1; PyBool false]) h1 =
      (Ok (binary_to_decimal
             (int_values (concat [[PyInt 0; PyInt 1; PyInt 1]; [PyBool true]]
                          ++ [PyInt 1; PyBool false])) mod 3)%Z, h2).
Proof.
  apply (mod3_calls_accumulate ∅ [[PyInt 0; PyInt 1; PyInt 1]; [PyBool true]]
           [PyInt 1; PyBool false]).
  - repeat (apply List.Forall_cons || apply List.Forall_nil || split
            || discriminate || (apply binary_value_cases; eauto)).
  - split; [discriminate|].
    repeat (apply List.Forall_cons || apply List.Forall_nil
            || (apply binary_value_cases; eauto)).
Defined.

Lemma mod3_is_accepting h self s0 s1 s2 r :
  mod3_heap h self s0 s1 s2 (state_of s0 s1 s2 (r mod 3)) →
  FSM_is_accepting self h = (Ok true, h).
Proof.
  intros [Hself H0 H1 H2]. unfold FSM_is_accepting, mod3_state in *.
  rewrite (bind_Ok _ _ _ _ _ (get_FSM_Ok _ _ _ Hself)). cbn [current_state].
  destruct (state_of_cases s0 s1 s2 r) as [[_ ->] | [[_ ->] | [_ ->]]];
    [rewrite (bind_Ok _ _ _ _ _ (get_State_Ok _ _ _ H0))
    |rewrite (bind_Ok _ _ _ _ _ (get_State_Ok _ _ _ H1))
    |rewrite (bind_Ok _ _ _ _ _ (get_State_Ok _ _ _ H2))]; done.
Qed.

(** X15. Every state of a [ModThreeFSM] is accepting: on a fresh machine,
    before any input and after any number of valid calls,
    [is_accepting()] returns [True]. *)
Theorem mod3_always_accepting h0 inputs :
  Forall valid_input inputs →
  ∃ self h h1,
    ModThreeFSM_init h0 = (Ok self, h) ∧
    mod3_calls self inputs h = (Ok tt, h1) ∧
    FSM_is_accepting self h1 = (Ok true, h1).
Proof.
  intros Hall.
  destruct (ModThreeFSM_init_layout h0) as (self & s0 & s1 & s2 & h & Hinit & Hm).
  destruct (mod3_calls_run h self s0 s1 s2 0 inputs Hm Hall) as (h1 & Hcalls & Hm1).
  exists self, h, h1. split; [done|]. split; [done|].
  by eapply mod3_is_accepting.
Qed.

Lemma mod3_always_accepting_witness :
  ∃ self h h1,
    ModThreeFSM_init ∅ = (Ok self, h) ∧
    mod3_calls self [[PyInt 1; PyInt 0]] h = (Ok tt, h1) ∧
    FSM_is_accepting self h1 = (Ok true, h1).
Proof.
  apply (mod3_always_accepting ∅ [[PyInt 1; PyInt 0]]).
  repeat (apply List.Forall_cons || apply List.Forall_nil || split
          || discriminate || (apply binary_value_cases; eauto)).
Defined.

(** ** class ModThreeFSM: a repeated pattern *)

Lemma horner_repeat_10 r k :
  (horner r (py_repeat [1; 0] k) mod 3 = (r + 2 * Z.of_nat k) mod 3)%Z.
Proof.
  revert r. induction k as [|k IH]; intros r.
  - cbn. f_equal. lia.
  - unfold py_repeat. cbn [replicate concat].
    rewrite horner_app. fold (py_repeat [1; 0]%Z k). rewrite IH.
    unfold horner. cbn [foldl].
    replace (2 * (2 * r + 1) + 0 + 2 * Z.of_nat k)%Z
      with (r + 2 * Z.of_nat (S k) + r * 3)%Z by lia.
    by rewrite Z.mod_add by lia.
Qed.

(** X16. [test_mod_three_with_large_input] in general: on a fresh
    [ModThreeFSM] the input [[1, 0] * k], for [k] at least 1, returns
    [(2 * k) % 3]; for the [k = 20] of the test that is 1. *)
Theorem mod3_repeated_10 h0 k :
  (1 ≤ k)%nat →
  ∃ self h h',
    ModThreeFSM_init h0 = (Ok self, h) ∧
    process_three_mod_input self (ints (py_repeat [1; 0]%Z k)) h =
      (Ok ((2 * Z.of_nat k) mod 3)%Z, h').
Proof.
  intros Hk.
  assert (Forall is_bit (py_repeat [1; 0]%Z k)) as Hbits.
  { unfold py_repeat. clear Hk. induction k as [|k IH]; [constructor|].
    cbn. repeat (constructor; [unfold is_bit; lia|]). exact IH. }
  destruct (ModThreeFSM_init_layout h0) as (self & s0 & s1 & s2 & h & Hinit & Hm).
  destruct (mod3_process_three_mod_input h self s0 s1 s2 0
              (PyInt <$> py_repeat [1; 0]%Z k))
    as (h' & Hrun & _);
    [done| |by apply Forall_binary_value_ints|].
  { destruct k; [lia|]. done. }
  exists self, h, h'. split; [done|].
  cbn zeta in Hrun. by rewrite int_values_ints, horner_repeat_10 in Hrun.
Qed.

Lemma mod3_repeated_10_witness :
  ∃ self h h',
    ModThreeFSM_init ∅ = (Ok self, h) ∧
    process_three_mod_input self (ints (py_repeat [1; 0]%Z 20)) h =
      (Ok ((2 * Z.of_nat 20) mod 3)%Z, h').
Proof. apply (mod3_repeated_10 ∅ 20). lia. Defined.

(** ** [binary_to_decimal] on arbitrary integers *)

Lemma horner_zeros k : horner 0 (replicate k 0%Z) = 0%Z.
Proof. induction k as [|k IH]; [done|]. exact IH. Qed.

(** X17. [binary_to_decimal] validates nothing and works by position
    alone: for every list of integers, bits or not, it is the positional
    sum; the empty list gives 0; a concatenation gives the value of the
    first part shifted by the length of the second, plus the value of the
    second; and leading zeros change nothing. *)
Theorem binary_to_decimal_laws :
  binary_to_decimal [] = 0%Z ∧
  (∀ l, binary_to_decimal l = positional_sum l) ∧
  (∀ l1 l2, binary_to_decimal (l1 ++ l2) =
            (binary_to_decimal l1 * 2 ^ Z.of_nat (length l2)
             + binary_to_decimal l2)%Z) ∧
  (∀ k l, binary_to_decimal (replicate k 0%Z ++ l) = binary_to_decimal l).
Proof.
  split; [done|]. split; [apply binary_to_decimal_positional_sum|].
  assert (∀ l1 l2, binary_to_decimal (l1 ++ l2) =
            (binary_to_decimal l1 * 2 ^ Z.of_nat (length l2)
             + binary_to_decimal l2)%Z) as Happ.
  { intros l1 l2. rewrite !binary_to_decimal_horner, horner_app.
    apply horner_shift. }
  split; [exact Happ|].
  intros k l. rewrite Happ, binary_to_decimal_horner, horner_zeros. lia.
Qed.

(** ** The machine of [example_fsm.py] *)

Lemma example_fsm_step r b :
  is_bit b →
  step (example_fsm ∅).2 (state_of 1%positive 2%positive 3%positive (r mod 3)) b =
    Some (state_of 1%positive 2%positive 3%positive ((2 * r + b) mod 3)).
Proof.
  intros Hb.
  assert (((2 * r + b) mod 3 = (2 * (r mod 3) + b) mod 3)%Z) as ->.
  { rewrite Z.add_mod, Z.mul_mod, (Z.add_mod (2 * (r mod 3))),
      (Z.mul_mod 2 (r mod 3)), !Z.mod_mod by lia. done. }
  destruct (state_of_cases 1%positive 2%positive 3%positive r) as [[-> ->] | [[-> ->] | [-> ->]]];
    destruct Hb as [-> | ->]; vm_compute; reflexivity.
Qed.

Lemma example_fsm_fold r seq :
  Forall is_bit seq →
  fold_steps (example_fsm ∅).2 (state_of 1%positive 2%positive 3%positive (r mod 3)) seq =
    Some (state_of 1%positive 2%positive 3%positive (horner r seq mod 3)).
Proof.
  intros Hbits. revert r. induction Hbits as [|b seq Hb _ IH]; intros r; [done|].
  rewrite fold_steps_cons, (example_fsm_step r b Hb). apply IH.
Qed.

(** X18. The machine built by [example_fsm.py] accepts exactly the binary
    numbers that are 2 modulo 3: for every non-empty list of bits,
    [process_input] returns a state, and [is_accepting()] is then [True]
    if and only if [binary_to_decimal] of the input is 2 modulo 3.  (The
    script's own input 1,0,1,0,1 is 21, which is 0 modulo 3: not
    accepted.) *)
Theorem example_fsm_accepts_2_mod_3 seq :
  seq ≠ [] →
  Forall is_bit seq →
  ∃ self h x h',
    example_fsm ∅ = (Ok self, h) ∧
    FSM_process_input self (ints seq) h = (Ok x, h') ∧
    FSM_is_accepting self h' =
      (Ok (bool_decide (binary_to_decimal seq mod 3 = 2)%Z), h').
Proof.
  intros Hne Hbits.
  set (m := mkFSM 1%positive
              (<["S2" := 3%positive]> (<["S1" := 2%positive]>
                 {["S0" := 1%positive]}))).
  assert ((example_fsm ∅).2 !! 4%positive = Some (ObjFSM m)) as Hm
    by (vm_compute; reflexivity).
  pose proof (example_fsm_fold 0%Z seq Hbits) as Hfold.
  rewrite <- binary_to_decimal_horner in Hfold.
  pose proof (for_each_process_symbol _ _ m seq _ Hm Hfold) as Hloop.
  eexists 4%positive, (example_fsm ∅).2, _, _.
  split; [by vm_compute|]. split.
  - unfold ints. rewrite FSM_process_input_nonempty by (by destruct seq).
    rewrite (bind_Ok _ _ _ _ _ Hloop).
    by rewrite (bind_Ok _ _ _ _ _ (get_FSM_Ok _ _ _ (lookup_insert_eq _ _ _))).
  - unfold FSM_is_accepting.
    rewrite (bind_Ok _ _ _ _ _ (get_FSM_Ok _ _ _ (lookup_insert_eq _ _ _))).
    cbn [current_state].
    destruct (state_of_cases 1%positive 2%positive 3%positive (binary_to_decimal seq))
      as [[-> ->] | [[-> ->] | [-> ->]]]; vm_compute; reflexivity.
Qed.

Lemma example_fsm_accepts_2_mod_3_witness :
  ∃ self h x h',
    example_fsm ∅ = (Ok self, h) ∧
    FSM_process_input self (ints [1; 0; 1; 0; 1]%Z) h = (Ok x, h') ∧
    FSM_is_accepting self h' =
      (Ok (bool_decide (binary_to_decimal [1; 0; 1; 0; 1] mod 3 = 2)%Z), h').
Proof.
  apply (example_fsm_accepts_2_mod_3 [1; 0; 1; 0; 1]%Z); [discriminate|all_bits].
Defined.

(** ** The mod-three machine is well formed *)

Lemma for_each_check_binary_heap l h : (for_each check_binary l h).2 = h.
Proof.
  induction l as [|v l IH]; [done|]. cbn [for_each]. unfold bind.
  pose proof (check_binary_heap v h) as Hv.
  destruct (check_binary v h) as [[[]|e] h1]; cbn in Hv; subst h1; [|done].
  exact IH.
Qed.

Lemma well_formed_process_input h self input :
  well_formed h self → well_formed (FSM_process_input self input h).2 self.
Proof.
  intros (Hcur & Htgt & Hnames).
  destruct (process_input_registered h self input Hcur Htgt) as [Hcur' Htgt'].
  repeat split; try done. by apply registry_names_consistent_process_input.
Qed.

Lemma well_formed_process_three_mod_input h self input :
  well_formed h self →
  well_formed (process_three_mod_input self input h).2 self.
Proof.
  intros Hwf. unfold process_three_mod_input.
  destruct input as [| | | |l|]; try done.
  apply (bind_heap (λ h', well_formed h' self));
    [by rewrite for_each_check_binary_heap|].
  intros [] h1 Hchk.
  assert (h1 = h) as ->.
  { pose proof (for_each_check_binary_heap l h) as Hh. by rewrite Hchk in Hh. }
  apply (bind_heap (λ h', well_formed h' self));
    [by apply well_formed_process_input|].
  intros x h1 Hrun.
  pose proof (well_formed_process_input h self (PyList l) Hwf) as Hwf1.
  rewrite Hrun in Hwf1. cbn [snd] in Hwf1.
  apply (bind_heap (λ h', well_formed h' self)); [by rewrite get_State_heap|].
  intros s h2 [_ ->]%get_State_inv. by rewrite int_of_str_heap.
Qed.

Lemma mod3_heap_well_formed h self s0 s1 s2 r :
  mod3_heap h self s0 s1 s2 (state_of s0 s1 s2 (r mod 3)) →
  well_formed h self.
Proof.
  intros Hm. pose proof Hm as [Hself H0 H1 H2]. unfold mod3_state in *.
  assert (∀ x, x = s0 ∨ x = s1 ∨ x = s2 →
               registered (mkFSM (state_of s0 s1 s2 (r mod 3))
                                 (mod3_registry s0 s1 s2)) x) as Hreg.
  { intros x [-> | [-> | ->]]; [exists "S0"|exists "S1"|exists "S2"];
      cbn; unfold mod3_registry; by simplify_map_eq. }
  assert (∀ n x, mod3_registry s0 s1 s2 !! n = Some x →
                 n = "S0" ∧ x = s0 ∨ n = "S1" ∧ x = s1 ∨ n = "S2" ∧ x = s2)
    as Hlook.
  { intros n x. unfold mod3_registry.
    rewrite !lookup_insert_Some, lookup_singleton_Some.
    intros [[<- <-] | [_ [[<- <-] | [_ [<- <-]]]]]; auto. }
  split; [|split].
  - eexists. split; [done|]. apply Hreg. cbn.
    destruct (state_of_cases s0 s1 s2 r) as [[_ ->] | [[_ ->] | [_ ->]]]; auto.
  - eexists. split; [done|]. cbn [states]. intros n x s sym t Hx Hs Ht.
    apply Hreg.
    destruct (Hlook n x Hx) as [[-> ->] | [[-> ->] | [-> ->]]];
      [rewrite H0 in Hs|rewrite H1 in Hs|rewrite H2 in Hs];
      injection Hs as <-; cbn in Ht;
      rewrite !lookup_insert_Some, lookup_empty in Ht;
      destruct Ht as [[_ <-] | [_ [[_ <-] | [_ [=]]]]]; auto.
  - eexists. split; [done|]. cbn [states]. intros n x Hx.
    destruct (Hlook n x Hx) as [[-> ->] | [[-> ->] | [-> ->]]]; eauto.
Qed.

(** X19. [ModThreeFSM()] builds a well-formed machine and
    [process_three_mod_input] keeps it so on every argument, accepted or
    rejected: the [current_state] is registered, every transition of a
    registered state leads to a registered state, and the registry is
    keyed by the states' names.  So the machine never steps out of its
    registry, which a generic machine can. *)
Theorem mod3_machine_well_formed :
  (∀ h0, ∃ self h, ModThreeFSM_init h0 = (Ok self, h) ∧ well_formed h self) ∧
  (∀ h self input,
     well_formed h self →
     well_formed (process_three_mod_input self input h).2 self).
Proof.
  split.
  - intros h0.
    destruct (ModThreeFSM_init_layout h0)
      as (self & s0 & s1 & s2 & h & Hinit & Hm).
    exists self, h. split; [done|].
    by apply (mod3_heap_well_formed h self s0 s1 s2 0%Z).
  - intros. by apply well_formed_process_three_mod_input.
Qed.

(** ** [State(...)] *)

(** X20. [State(name, is_accepting)] with a non-empty name creates a new
    object, at a reference no existing object has, carrying that name and
    flag; the new state has no transition, so [get_next_state] returns
    [None] for every integer symbol; and every object that existed is
    unchanged.  With the empty name it raises the [ValueError]. *)
Theorem State_init_fresh_state n acc h :
  if bool_decide (n = "") then
    State_init n acc h = (Raise (ValueError StateNameNotNonEmptyString), h)
  else
    ∃ x h',
      State_init n acc h = (Ok x, h') ∧
      h !! x = None ∧
      h' !! x = Some (ObjState (mkState n acc ∅)) ∧
      (∀ sym, State_get_next_state x (PyInt sym) h' = (Ok None, h')) ∧
      (∀ y, y ≠ x → h' !! y = h !! y).
Proof.
  case_bool_decide as Hn.
  - unfold State_init. by rewrite bool_decide_eq_true_2.
  - destruct (State_init_Ok n acc h Hn) as (x & Hx & Hinit).
    eexists x, _. split; [done|]. split; [done|].
    split; [apply lookup_insert_eq|]. split.
    + intros sym.
      by erewrite State_get_next_state_int by apply lookup_insert_eq.
    + intros y Hy. by rewrite lookup_insert_ne.
Qed.

(** ** Machines built through the machine's own methods *)

Lemma registered_insert m n x y :
  states m !! n = None → registered m y →
  registered (mkFSM (current_state m) (<[n := x]> (states m))) y.
Proof.
  intros Hfree [n' Hn']. exists n'. cbn.
  rewrite lookup_insert_ne; [done|]. intros ->. congruence.
Qed.

Lemma well_formed_init h x s self h' :
  h !! x = Some (ObjState s) →
  transitions s = ∅ →
  FSM_init x h = (Ok self, h') →
  well_formed h' self.
Proof.
  intros Hx Hempty Hinit.
  split; [by eapply current_state_registered_init|].
  split; [|by eapply registry_names_consistent_init].
  destruct (FSM_init_Ok h x s Hx) as (self' & Hfresh & Hinit').
  rewrite Hinit in Hinit'. injection Hinit' as -> ->.
  eexists. split; [apply lookup_insert_eq|]. cbn [states].
  intros n y s' sym t [<- <-]%lookup_singleton_Some Hs' Ht.
  rewrite lookup_insert_ne in Hs' by (intros ->; congruence).
  assert (s' = s) as -> by congruence.
  by rewrite Hempty, lookup_empty in Ht.
Qed.

Lemma well_formed_add_state h self state :
  well_formed h self →
  (∀ s, h !! state = Some (ObjState s) → transitions s = ∅) →
  well_formed (FSM_add_state self state h).2 self.
Proof.
  intros (Hcur & Htgt & Hnames) Hempty.
  split; [by apply current_state_registered_add_state|].
  split; [|by apply registry_names_consistent_add_state].
  unfold FSM_add_state.
  apply bind_heap; [by rewrite check_isinstance_State_heap|].
  intros [] h1 ->%check_isinstance_State_inv.
  apply bind_heap; [by rewrite get_State_heap|].
  intros s h1 [Hs ->]%get_State_inv.
  apply bind_heap; [by rewrite get_FSM_heap|].
  intros m h1 [Hm ->]%get_FSM_inv.
  case_bool_decide as Hdup; [done|]. cbn.
  assert (states m !! name s = None) as Hfree by (by apply eq_None_not_Some).
  destruct Htgt as (m' & Hm' & Hclosed). assert (m' = m) as -> by congruence.
  eexists. split; [apply lookup_insert_eq|]. cbn [states].
  intros n x s' sym t Hx Hs' Ht.
  assert (x ≠ self) as Hne by (intros ->; by rewrite lookup_insert_eq in Hs').
  rewrite lookup_insert_ne in Hs' by done.
  apply lookup_insert_Some in Hx as [[<- <-]|[Hn Hx]].
  - assert (s' = s) as -> by congruence.
    by rewrite (Hempty s Hs), lookup_empty in Ht.
  - apply registered_insert; [done|]. eauto.
Qed.

(** X21. A machine assembled through its own methods is well formed and
    stays so: [FSM(initial_state)] on a state without transitions yields
    a machine whose [current_state] is registered, whose registered
    states lead only to registered states and whose registry is keyed by
    the states' names; [add_state] of a state without transitions,
    [FSM.add_transition], [process_input] and [is_accepting] all keep
    these three facts, whether they return or raise. *)
Theorem machine_methods_keep_well_formed :
  (∀ h x s self h',
     h !! x = Some (ObjState s) → transitions s = ∅ →
     FSM_init x h = (Ok self, h') → well_formed h' self) ∧
  (∀ h self,
     well_formed h self →
     (∀ state, (∀ s, h !! state = Some (ObjState s) → transitions s = ∅) →
               well_formed (FSM_add_state self state h).2 self) ∧
     (∀ from_name sym to_name,
        well_formed (FSM_add_transition self from_name sym to_name h).2 self) ∧
     (∀ input, well_formed (FSM_process_input self input h).2 self) ∧
     well_formed (FSM_is_accepting self h).2 self).
Proof.
  split; [apply well_formed_init|].
  intros h self Hwf. split; [|split; [|split]].
  - intros state Hempty. by apply well_formed_add_state.
  - intros from_name sym to_name. destruct Hwf as (Hcur & Htgt & Hnames).
    split; [by apply current_state_registered_add_transition|].
    split; [by apply targets_registered_add_transition|].
    by apply registry_names_consistent_add_transition.
  - intros input. by apply well_formed_process_input.
  - by rewrite FSM_is_accepting_heap.
Qed.

Lemma machine_methods_keep_well_formed_witness :
  well_formed (FSM_add_transition 4%positive "S1" 1%Z "S2" (test_fsm ∅).2).2
              4%positive ∧
  well_formed (FSM_process_input 4%positive (ints [0; 1]%Z) (test_fsm ∅).2).2
              4%positive.
Proof.
  destruct machine_methods_keep_well_formed as [_ Hkeep].
  assert (well_formed (test_fsm ∅).2 4%positive) as Hwf.
  { split; [|split].
    - apply current_state_registeredb_true. vm_compute. reflexivity.
    - apply targets_registeredb_true. vm_compute. reflexivity.
    - apply registry_names_consistentb_true. vm_compute. reflexivity. }
  destruct (Hkeep (test_fsm ∅).2 4%positive Hwf) as (_ & Hadd & Hrun & _).
  split; [apply Hadd|apply Hrun].
Defined.

(** ** The two outcomes of [process_input] *)

Lemma fold_steps_registered h self m seq final :
  well_formed h self → h !! self = Some (ObjFSM m) →
  fold_steps h (current_state m) seq = Some final →
  registered m final.
Proof.
  intros ((m1 & Hm1 & Hcur) & (m2 & Hm2 & Hclosed) & _) Hm.
  assert (m1 = m) as -> by congruence. assert (m2 = m) as -> by congruence.
  clear Hm1 Hm2. revert Hcur. generalize (current_state m) as c.
  induction seq as [|sym seq IH]; intros c Hc Hfold.
  - by injection Hfold as <-.
  - rewrite fold_steps_cons in Hfold.
    destruct (step h c sym) as [t|] eqn:Hstep; [|done].
    apply (IH t); [|done].
    apply step_Some in Hstep as (st & Hst & Ht).
    destruct Hc as [n Hn]. eauto.
Qed.

(** A path is defined to its end or stops at a first undefined step. *)
Lemma fold_steps_None h c seq :
  fold_steps h c seq = None →
  ∃ pre sym post sk,
    seq = pre ++ sym :: post ∧ fold_steps h c pre = Some sk ∧
    step h sk sym = None.
Proof.
  revert c. induction seq as [|sym seq IH]; intros c Hfold; [done|].
  rewrite fold_steps_cons in Hfold.
  destruct (step h c sym) as [t|] eqn:Hstep.
  - destruct (IH t Hfold) as (pre & sym' & post & sk & -> & Hpre & Hnone).
    exists (sym :: pre), sym', post, sk. split; [done|]. split; [|done].
    by rewrite fold_steps_cons, Hstep.
  - by exists [], sym, seq, c.
Qed.

(** X22. On a well-formed machine, [process_input] on a non-empty list of
    integers has exactly two outcomes.  If every symbol has a transition
    along the way, it returns the state the fold of [get_next_state]
    reaches and makes it the [current_state].  Otherwise it raises the
    no-transition [ValueError] for the first symbol without a transition
    and the state reached before it, which is then the [current_state].
    It raises nothing else. *)
Theorem process_input_two_outcomes h self m seq :
  well_formed h self →
  h !! self = Some (ObjFSM m) →
  seq ≠ [] →
  match fold_steps h (current_state m) seq with
  | Some final =>
      FSM_process_input self (ints seq) h =
        (Ok final, <[self := ObjFSM (mkFSM final (states m))]> h)
  | None =>
      ∃ pre sym post sk st,
        seq = pre ++ sym :: post ∧
        fold_steps h (current_state m) pre = Some sk ∧
        h !! sk = Some (ObjState st) ∧ transitions st !! sym = None ∧
        FSM_process_input self (ints seq) h =
          (Raise (ValueError (NoTransition (PyInt sym) (name st))),
           <[self := ObjFSM (mkFSM sk (states m))]> h)
  end.
Proof.
  intros Hwf Hm Hne.
  destruct (fold_steps h (current_state m) seq) as [final|] eqn:Hfold.
  - unfold ints. rewrite FSM_process_input_nonempty by (by destruct seq).
    rewrite (bind_Ok _ _ _ _ _ (for_each_process_symbol _ _ _ _ _ Hm Hfold)).
    by rewrite (bind_Ok _ _ _ _ _ (get_FSM_Ok _ _ _ (lookup_insert_eq _ _ _))).
  - destruct (fold_steps_None _ _ _ Hfold)
      as (pre & sym & post & sk & -> & Hpre & Hnone).
    pose proof (fold_steps_registered _ _ _ _ _ Hwf Hm Hpre) as [n Hn].
    destruct Hwf as (_ & _ & (m' & Hm' & Hnames)).
    assert (m' = m) as -> by congruence.
    destruct (Hnames n sk Hn) as (st & Hst & _).
    assert (transitions st !! sym = None) as Hsym.
    { revert Hnone. unfold step.
      by rewrite (State_get_next_state_int _ _ _ _ Hst). }
    exists pre, sym, post, sk, st. repeat split; try done.
    unfold ints. rewrite FSM_process_input_nonempty by (by destruct pre).
    rewrite fmap_app, fmap_cons. apply bind_Raise. rewrite for_each_app.
    rewrite (bind_Ok _ _ _ _ _ (for_each_process_symbol _ _ _ _ _ Hm Hpre)).
    cbn [for_each]. apply bind_Raise.
    apply (process_symbol_NoTransition _ _ (mkFSM sk (states m)));
      [apply lookup_insert_eq| |done].
    cbn. rewrite lookup_insert_ne; [done|]. intros ->. congruence.
Qed.

(** [TestFSM.test_process_input]: [0] is accepted from S0, [1] is not. *)
Lemma process_input_two_outcomes_witness :
  FSM_process_input 4%positive (ints [0%Z]) (test_fsm ∅).2 =
    (Ok 2%positive,
     <[4%positive := ObjFSM (mkFSM 2%positive
        (<["S2" := 3%positive]> (<["S1" := 2%positive]> {["S0" := 1%positive]})))]>
       (test_fsm ∅).2) ∧
  ∃ pre sym post sk st,
    [1%Z] = pre ++ sym :: post ∧
    fold_steps (test_fsm ∅).2 1%positive pre = Some sk ∧
    (test_fsm ∅).2 !! sk = Some (ObjState st) ∧ transitions st !! sym = None ∧
    FSM_process_input 4%positive (ints [1%Z]) (test_fsm ∅).2 =
      (Raise (ValueError (NoTransition (PyInt sym) (name st))),
       <[4%positive := ObjFSM (mkFSM sk
          (<["S2" := 3%positive]> (<["S1" := 2%positive]>
             {["S0" := 1%positive]})))]> (test_fsm ∅).2).
Proof.
  assert (well_formed (test_fsm ∅).2 4%positive) as Hwf.
  { split; [|split].
    - apply current_state_registeredb_true. vm_compute. reflexivity.
    - apply targets_registeredb_true. vm_compute. reflexivity.
    - apply registry_names_consistentb_true. vm_compute. reflexivity. }
  assert ((test_fsm ∅).2 !! 4%positive =
          Some (ObjFSM (mkFSM 1%positive
            (<["S2" := 3%positive]> (<["S1" := 2%positive]>
               {["S0" := 1%positive]}))))) as Hm
    by (vm_compute; reflexivity).
  split.
  - exact (process_input_two_outcomes _ _ _ [0%Z] Hwf Hm ltac:(discriminate)).
  - exact (process_input_two_outcomes _ _ _ [1%Z] Hwf Hm ltac:(discriminate)).
Defined.
